(** * smb-to-s3-sync: a shallow embedding of the transfer engine

    The development follows the three source files:
    - [utils]  : src/utils.py  ([format_bytes], [SMBHandler]);
    - [config] : src/config.py ([Config] and its [__post_init__]);
    - [sync]   : src/sync.py   ([OptimizedS3Uploader], [main]);
    [examples] holds the concrete worlds and inputs the examples run on.

    Python integers are [Z].  Python exceptions are values of [exn]; code
    that may raise runs in the state-and-exception monad [M], whose state
    survives a raise exactly as Python's heap does.  The outside world
    (file system, boto3, the logging module, the wall clock, the thread
    scheduler) is an oracle record [Env]; everything the program does to it is logged in
    the state. *)

From stdpp Require Import gmap strings list pretty sorting.
From Stdlib Require Import ZArith QArith Lia Permutation Ascii.

Open Scope Z_scope.

(** ** Exceptions and results *)

(** The classes of [Exception] the program raises or receives.  Every one
    of them derives from [Exception], which is what [except Exception]
    in [upload_file] catches. *)
Inductive exn_class :=
| ValueError
| TypeError
| OverflowError
| ZeroDivisionError
| NotImplementedError
| OSError
| FileNotFoundError
| PermissionError
| ClientError
| S3UploadFailedError
| AttributeError
| OtherException (name : string).

(** An exception object: its class and the text [str(e)]. *)
Record exn := Exn { exn_cls : exn_class; exn_str : string }.

Inductive result (A : Type) :=
| Ok (a : A)
| Err (e : exn).
Arguments Ok {A} a.
Arguments Err {A} e.

Definition is_ok {A} (r : result A) : bool :=
  match r with Ok _ => true | Err _ => false end.

Definition rbind {A B} (r : result A) (k : A -> result B) : result B :=
  match r with
  | Ok a => k a
  | Err e => Err e
  end.

Declare Scope result_scope.
Delimit Scope result_scope with res.
Notation "x <-? r ; k" := (rbind r (fun x => k))
  (at level 100, r at next level, right associativity) : result_scope.

(** ** src/utils.py *)

Module utils.

(** The numeric values [format_bytes] manipulates.  The argument is an
    [int]; after the first [bytes /= 1024.0] it is a [float].  The float
    is always an integer-valued double divided by a power of 1024, so
    [PyFloat m j] stands for the double [m / 1024^j]: dividing a double
    of magnitude at least 1 by 1024 only lowers its exponent and is
    exact. *)
Inductive pynum :=
| PyInt (n : Z)
| PyFloat (m : Z) (j : nat).

(** [float(n)] for a Python [int]: the nearest double, ties to even on a
    53-bit significand; [OverflowError] when that is not finite.  The
    result is again an integer. *)
Definition float_of_int (n : Z) : result Z :=
  let a := Z.abs n in
  if a <? 2 ^ 53 then Ok n
  else
    let e := Z.log2 a - 52 in
    let q := a / 2 ^ e in
    let r := a mod 2 ^ e in
    let half := 2 ^ (e - 1) in
    let q' := if (half <? r) || ((r =? half) && Z.odd q) then q + 1 else q in
    let v := q' * 2 ^ e in
    if 2 ^ 1024 <=? v
    then Err (Exn OverflowError "int too large to convert to float")
    else Ok (Z.sgn n * v).

(** [bytes < 1024.0]: Python compares an int with a float exactly. *)
Definition lt_1024 (b : pynum) : bool :=
  match b with
  | PyInt n => n <? 1024
  | PyFloat m j => m <? 1024 * 1024 ^ Z.of_nat j
  end.

(** [bytes /= 1024.0] *)
Definition div_1024 (b : pynum) : result pynum :=
  match b with
  | PyInt n => (m <-? float_of_int n; Ok (PyFloat m 1))%res
  | PyFloat m j => Ok (PyFloat m (S j))
  end.

(** Nearest integer to [num / den] ([den > 0]), ties to even. *)
Definition round_half_even (num den : Z) : Z :=
  let q := num / den in
  let r := num mod den in
  match (2 * r) ?= den with
  | Lt => q
  | Gt => q + 1
  | Eq => if Z.even q then q else q + 1
  end.

Definition two_digits (c : Z) : string :=
  if c <? 10 then "0" +:+ pretty c else pretty c.

(** The text of [num / den] in fixed notation with two decimals, as
    [format(x, ".2f")] prints the double [num / den]: correctly rounded,
    ties to even, the sign of the value kept. *)
Definition fixed2 (num den : Z) : string :=
  let h := Z.abs (round_half_even (100 * num) den) in
  (if num <? 0 then "-" else "") +:+ pretty (h / 100) +:+ "." +:+ two_digits (h mod 100).

(** [f"{bytes:.2f}"]; an [int] is converted with [float] first. *)
Definition format_2f (b : pynum) : result string :=
  match b with
  | PyInt n => (m <-? float_of_int n; Ok (fixed2 m 1))%res
  | PyFloat m j => Ok (fixed2 m (1024 ^ Z.of_nat j))
  end.

(** The [for unit in [...]] loop of [format_bytes], with the fall-through
    [return f"{bytes:.2f} PB"] when the list is exhausted. *)
Fixpoint format_bytes_loop (units : list string) (bytes : pynum) : result string :=
  match units with
  | [] => (s <-? format_2f bytes; Ok (s +:+ " PB"))%res
  | unit :: rest =>
      if lt_1024 bytes
      then (s <-? format_2f bytes; Ok (s +:+ " " +:+ unit))%res
      else (b <-? div_1024 bytes; format_bytes_loop rest b)%res
  end.

Definition format_bytes (bytes : Z) : result string :=
  format_bytes_loop ["B"; "KB"; "MB"; "GB"; "TB"] (PyInt bytes).

(** What the report promises, written independently of the loop: the
    unit is the largest of B/KB/MB/GB/TB/PB whose size [1024^k] does not
    exceed the count, and the number shown is [n / 1024^k] with two
    decimals. *)
Definition unit_names : list string := ["B"; "KB"; "MB"; "GB"; "TB"; "PB"].

Definition unit_index (n : Z) : Z := Z.min 5 (Z.log2 n / 10).

Definition format_bytes_spec (n : Z) : string :=
  let k := unit_index n in
  fixed2 n (1024 ^ k) +:+ " " +:+ nth (Z.to_nat k) unit_names "".

(** [SMBHandler.list_all_files]: the placeholder raises unconditionally. *)
Definition SMBHandler_list_all_files : result (list (string * string)) :=
  Err (Exn NotImplementedError "SMB handler not implemented yet. Use --mock mode.").

End utils.

(** ** src/config.py *)

Module config.

(** The dataclass [Config].  The record holds the field values of an
    instance; for [Config()] these are the class-level defaults, read
    from the process environment when the module is imported. *)
Record Config := {
  aws_region : string;
  s3_bucket : string;
  s3_prefix : string;
  s3_storage_class : string;
  smb_server : string;
  smb_share : string;
  smb_user : string;
  smb_password : string;
  smb_domain : string;
  max_workers : Z;
  dry_run : bool;
  log_level : string;
  mock_mode : bool;
  mock_num_files : Z
}.

(** [not s] for a [str]: true exactly for the empty string. *)
Definition str_not (s : string) : bool := bool_decide (s = "").

(** [Config.__post_init__] *)
Definition post_init (self : Config) : result unit :=
  if negb (mock_mode self) then
    if str_not (s3_bucket self)
    then Err (Exn ValueError "S3_BUCKET is required")
    else if str_not (smb_server self)
    then Err (Exn ValueError "SMB_SERVER is required when not in mock mode")
    else Ok tt
  else Ok tt.

(** Instantiating the dataclass: the generated [__init__] stores the
    fields and then calls [__post_init__]. *)
Definition new (fields : Config) : result Config :=
  (_ <-? post_init fields; Ok fields)%res.

End config.

(** ** src/sync.py *)

Module sync.
Import config.

(** *** Data *)

(** [boto3.s3.transfer.TransferConfig] as the uploader fills it in. *)
Record TransferConfig := {
  multipart_threshold : Z;
  multipart_chunksize : Z;
  max_concurrency : Z;
  max_io_queue : Z;
  num_download_attempts : Z;
  use_threads : bool
}.

(** One call of [s3_client.upload_file] with everything passed to it. *)
Record PutCall := {
  put_client : nat;
  put_filename : string;
  put_bucket : string;
  put_key : string;
  put_config : TransferConfig;
  put_storage_class : string
}.

(** [self.stats]; [start_time] is [None] until [sync] stamps it.  Times
    are rationals: float rounding of the clock is not modelled. *)
Record Stats := {
  success : Z;
  failed : Z;
  bytes_transferred : Z;
  start_time : option Q
}.

(** The triple [upload_file] returns: [(success, message, bytes)]. *)
Definition Outcome : Type := bool * string * Z.

(** A submitted future: its position in the submission order and the
    arguments of the [upload_file] call it stands for. *)
Record Future := { fut_id : nat; fut_path : string; fut_key : string }.

(** The tqdm bar: counter, total, and the postfix [(rate, failed)] once
    [set_postfix] has been called. *)
Record Pbar := {
  pbar_n : Z;
  pbar_total : Z;
  pbar_postfix : option (Q * Z)
}.

Inductive level := DEBUG | INFO | WARNING | ERROR.

(** The lines of [print_summary], kept as data instead of formatted
    text. *)
Inductive SummaryLine :=
| Rule
| Title
| TotalFiles (n : Z)
| Successful (n : Z)
| Failed (n : Z)
| DataTransferred (s : string)
| TimeElapsed (t : Q)
| UploadRate (r : Q)
| Estimated (hours : Q).

Inductive LogRecord :=
| Log (lvl : level) (msg : string)
| Summary (line : SummaryLine).

(** *** The outside world *)

(** What the program cannot decide for itself.
    - [getsize p]: the result of [os.path.getsize(p)];
    - [client_error k r]: whether the [k]-th call of [boto3.client] (with
      region [r]) raises;
    - [put_error k c]: whether the put [c], issued after [k] earlier
      puts, raises;
    - [now k]: the [k]-th reading of [time.time()];
    - [pick]: which pending future completes next (see [as_completed]);
    - [worker i]: which pool thread runs future number [i];
    - [mock_tree_error n]: whether building the mock tree of [n] files
      on disk fails;
    - [level_error l]: whether the [logging] module refuses the level
      named [l], that is, whether [getattr(logging, l.upper())] or the
      [setLevel] that follows raises. *)
Record Env := {
  getsize : string -> result Z;
  client_error : nat -> string -> option exn;
  put_error : nat -> PutCall -> option exn;
  now : nat -> Q;
  pick : nat -> nat;
  worker : nat -> nat;
  mock_tree_error : Z -> option exn;
  level_error : string -> option exn
}.

(** *** Program state *)

(** - [thread_local]: [self.thread_local], one namespace per thread; the
      map sends a thread to the client object stored in its [s3_client]
      attribute.  Client objects are named by the index of the
      [boto3.client] call that built them;
    - [stats]: [self.stats];
    - [boto3_calls]: how many times [boto3.client] has been called;
    - [s3_calls]: every put issued so far, oldest first;
    - [clock_reads]: how many times [time.time()] has been read;
    - [log]: every logging call so far, oldest first;
    - [display]: every state of the current progress bar that was drawn,
      oldest first;
    - [history]: ghost state, the futures whose outcome the aggregation
      loop has consumed, with that outcome, oldest first. *)
Record State := mkState {
  thread_local : gmap nat nat;
  stats : Stats;
  boto3_calls : nat;
  s3_calls : list PutCall;
  clock_reads : nat;
  log : list LogRecord;
  display : list Pbar;
  history : list (Future * Outcome)
}.

Definition set_thread_local (f : gmap nat nat -> gmap nat nat) (st : State) : State :=
  mkState (f (thread_local st)) (stats st) (boto3_calls st) (s3_calls st)
          (clock_reads st) (log st) (display st) (history st).
Definition set_stats (f : Stats -> Stats) (st : State) : State :=
  mkState (thread_local st) (f (stats st)) (boto3_calls st) (s3_calls st)
          (clock_reads st) (log st) (display st) (history st).
Definition set_boto3_calls (f : nat -> nat) (st : State) : State :=
  mkState (thread_local st) (stats st) (f (boto3_calls st)) (s3_calls st)
          (clock_reads st) (log st) (display st) (history st).
Definition set_s3_calls (f : list PutCall -> list PutCall) (st : State) : State :=
  mkState (thread_local st) (stats st) (boto3_calls st) (f (s3_calls st))
          (clock_reads st) (log st) (display st) (history st).
Definition set_clock_reads (f : nat -> nat) (st : State) : State :=
  mkState (thread_local st) (stats st) (boto3_calls st) (s3_calls st)
          (f (clock_reads st)) (log st) (display st) (history st).
Definition set_log (f : list LogRecord -> list LogRecord) (st : State) : State :=
  mkState (thread_local st) (stats st) (boto3_calls st) (s3_calls st)
          (clock_reads st) (f (log st)) (display st) (history st).
Definition set_display (f : list Pbar -> list Pbar) (st : State) : State :=
  mkState (thread_local st) (stats st) (boto3_calls st) (s3_calls st)
          (clock_reads st) (log st) (f (display st)) (history st).
Definition set_history (f : list (Future * Outcome) -> list (Future * Outcome))
    (st : State) : State :=
  mkState (thread_local st) (stats st) (boto3_calls st) (s3_calls st)
          (clock_reads st) (log st) (display st) (f (history st)).

(** The state of a process that has just started. *)
Definition boot : State :=
  mkState ∅ (Build_Stats 0 0 0 None) 0 [] 0 [] [] [].

(** *** The monad of the program: state plus Python exceptions *)

Definition M (A : Type) : Type := State -> result A * State.

Definition ret {A} (a : A) : M A := fun st => (Ok a, st).

Definition bind {A B} (c : M A) (k : A -> M B) : M B :=
  fun st =>
    match c st with
    | (Ok a, st') => k a st'
    | (Err e, st') => (Err e, st')
    end.

Definition raise {A} (e : exn) : M A := fun st => (Err e, st).

(** [try: body except Exception as e: handler(e)] *)
Definition try_except {A} (body : M A) (handler : exn -> M A) : M A :=
  fun st =>
    match body st with
    | (Ok a, st') => (Ok a, st')
    | (Err e, st') => handler e st'
    end.

Definition get : M State := fun st => (Ok st, st).
Definition modify (f : State -> State) : M unit := fun st => (Ok tt, f st).
Definition lift {A} (r : result A) : M A := fun st => (r, st).

Declare Scope py_scope.
Delimit Scope py_scope with py.
Notation "'let*' x ':=' c 'in' k" := (bind c (fun x => k))
  (at level 10, x name, c at level 100, k at level 200) : py_scope.
Notation "c '>>' k" := (bind c (fun _ => k))
  (at level 100, k at level 200, right associativity) : py_scope.
Open Scope py_scope.

(** *** Library calls *)

Definition os_path_getsize (env : Env) (path : string) : M Z :=
  lift (getsize env path).

(** [boto3.client('s3', region_name=region)]: a new client object, or an
    exception. *)
Definition boto3_client (env : Env) (region : string) : M nat :=
  fun st =>
    let k := boto3_calls st in
    let st' := set_boto3_calls S st in
    match client_error env k region with
    | Some e => (Err e, st')
    | None => (Ok k, st')
    end.

(** [s3_client.upload_file(Filename, Bucket, Key, Config=.., ExtraArgs=..)] *)
Definition s3_upload_file (env : Env) (call : PutCall) : M unit :=
  fun st =>
    let k := length (s3_calls st) in
    let st' := set_s3_calls (fun l => l ++ [call]) st in
    match put_error env k call with
    | Some e => (Err e, st')
    | None => (Ok tt, st')
    end.

(** [time.time()] *)
Definition time_time (env : Env) : M Q :=
  fun st => (Ok (now env (clock_reads st)), set_clock_reads S st).

Definition logger (lvl : level) (msg : string) : M unit :=
  modify (set_log (fun l => l ++ [Log lvl msg])).

Definition logger_summary (line : SummaryLine) : M unit :=
  modify (set_log (fun l => l ++ [Summary line])).

(** True division [a / b] of Python numbers. *)
Definition truediv (a b : Q) : M Q :=
  if Qeq_bool b 0
  then raise (Exn ZeroDivisionError "float division by zero")
  else ret (a / b)%Q.

(** [a > 0] on a Python float. *)
Definition is_positive (a : Q) : bool := negb (Qle_bool a 0).

(** [ThreadPoolExecutor(max_workers=n)] *)
Definition ThreadPoolExecutor (n : Z) : M unit :=
  if n <=? 0
  then raise (Exn ValueError "max_workers must be greater than 0")
  else ret tt.

(** [as_completed(futures)]: the futures in the order in which they
    complete.  At each step the scheduler's [pick] names one of the
    futures still pending. *)
Fixpoint completion_order {A} (pick : nat -> nat) (fuel step : nat)
    (pending : list A) : list A :=
  match fuel with
  | O => []
  | S fuel' =>
      let k := (pick step mod length pending)%nat in
      match pending !! k with
      | Some f => f :: completion_order pick fuel' (S step) (delete k pending)
      | None => []
      end
  end.

Definition as_completed {A} (env : Env) (futures : list A) : list A :=
  completion_order (pick env) (length futures) 0 futures.

(** *** class OptimizedS3Uploader *)

Section Uploader.

Variable env : Env.
Variable config : Config.

(** [self.transfer_config] *)
Definition transfer_config : TransferConfig :=
  {| multipart_threshold := 8 * 1024 * 1024;
     multipart_chunksize := 8 * 1024 * 1024;
     max_concurrency := 10;
     max_io_queue := 1000;
     num_download_attempts := 5;
     use_threads := true |}.

(** [OptimizedS3Uploader.__init__]: a fresh thread-local object and
    zeroed statistics (and, ghost, an empty history). *)
Definition init : M unit :=
  modify (set_thread_local (fun _ => ∅)) >>
  modify (set_stats (fun _ => Build_Stats 0 0 0 None)) >>
  modify (set_history (fun _ => [])).

(** [get_s3_client], called from thread [tid]. *)
Definition get_s3_client (tid : nat) : M nat :=
  let* st := get in
  (if bool_decide (thread_local st !! tid = None)
   then let* c := boto3_client env (aws_region config) in
        modify (set_thread_local <[tid := c]>)
   else ret tt) >>
  let* st := get in
  match thread_local st !! tid with
  | Some c => ret c
  | None => raise (Exn AttributeError "'_thread._local' object has no attribute 's3_client'")
  end.

(** [upload_file], called from thread [tid]. *)
Definition upload_file (tid : nat) (file_path s3_key : string) : M Outcome :=
  try_except
    (let* file_size := os_path_getsize env file_path in
     let* s3_client := get_s3_client tid in
     if dry_run config then
       logger DEBUG ("DRY RUN: Would upload " +:+ file_path +:+ " -> s3://"
                     +:+ s3_bucket config +:+ "/" +:+ s3_key) >>
       ret (true, file_path, file_size)
     else
       s3_upload_file env
         {| put_client := s3_client;
            put_filename := file_path;
            put_bucket := s3_bucket config;
            put_key := s3_key;
            put_config := transfer_config;
            put_storage_class := s3_storage_class config |} >>
       ret (true, file_path, file_size))
    (fun e =>
       logger ERROR ("Error uploading " +:+ file_path +:+ ": " +:+ exn_str e) >>
       ret (false, file_path +:+ ": " +:+ exn_str e, 0)).

(** Lines 108-113 of [sync] on the statistics alone: one counter goes up
    by one, and the bytes are added on success only. *)
Definition record (o : Outcome) (s : Stats) : Stats :=
  let '(ok, _, bytes) := o in
  if ok
  then Build_Stats (success s + 1) (failed s) (bytes_transferred s + bytes) (start_time s)
  else Build_Stats (success s) (failed s + 1) (bytes_transferred s) (start_time s).

(** Lines 108-113 of [sync], with the log entry of a failure. *)
Definition record_outcome (o : Outcome) : M unit :=
  let '(ok, message, bytes) := o in
  if ok
  then modify (set_stats (record o))
  else modify (set_stats (record o)) >> logger ERROR message.

(** [executor.submit(self.upload_file, local_path, s3_key)] for every
    element of [files], in order. *)
Definition submit_all (files : list (string * string)) : list Future :=
  imap (fun i f => Build_Future i f.1 f.2) files.

(** The pool thread that runs a future. *)
Definition thread_of (f : Future) : nat :=
  (worker env (fut_id f) mod Z.to_nat (max_workers config))%nat.

(** [future.result()].  The call of [upload_file] that a pool thread
    makes for the future is placed at the moment the aggregation loop
    consumes it: calls for different futures share only the per-thread
    client slot and the outside world. *)
Definition future_result (f : Future) : M Outcome :=
  upload_file (thread_of f) (fut_path f) (fut_key f).

(** [pbar.update(1)] and [pbar.set_postfix(...)]; each draws the bar. *)
Definition pbar_update (pbar : Pbar) : M Pbar :=
  let pbar' := Build_Pbar (pbar_n pbar + 1) (pbar_total pbar) (pbar_postfix pbar) in
  modify (set_display (fun d => d ++ [pbar'])) >> ret pbar'.

Definition pbar_set_postfix (pbar : Pbar) (rate : Q) (nfailed : Z) : M Pbar :=
  let pbar' := Build_Pbar (pbar_n pbar) (pbar_total pbar) (Some (rate, nfailed)) in
  modify (set_display (fun d => d ++ [pbar'])) >> ret pbar'.

(** [time.time() - self.stats['start_time']] *)
Definition elapsed_since_start : M Q :=
  let* t := time_time env in
  let* st := get in
  match start_time (stats st) with
  | Some t0 => ret (t - t0)%Q
  | None => raise (Exn TypeError "unsupported operand type(s) for -: 'float' and 'NoneType'")
  end.

(** [self.stats['success'] / elapsed if elapsed > 0 else 0].  The
    quotient is kept exact.  Python first converts the count to a float,
    which is exact below [2^53] and raises [OverflowError] from about
    [2^1024] on; that conversion and the rounding of the quotient are not
    modelled, so this definition stands for the code only for counts that
    convert ([utils.float_of_int] says which). *)
Definition rate_of (nsuccess : Z) (elapsed : Q) : M Q :=
  if is_positive elapsed then truediv (inject_Z nsuccess) elapsed else ret 0%Q.

(** The body of [for future in as_completed(futures)], lines 106-124. *)
Definition loop_body (future : Future) (pbar : Pbar) : M Pbar :=
  let* o := future_result future in
  record_outcome o >>
  modify (set_history (fun h => h ++ [(future, o)])) >>
  let* pbar := pbar_update pbar in
  let* st := get in
  if 0 <? success (stats st) then
    let* elapsed := elapsed_since_start in
    let* rate := rate_of (success (stats st)) elapsed in
    let* st := get in
    pbar_set_postfix pbar rate (failed (stats st))
  else ret pbar.

Fixpoint for_each (futures : list Future) (pbar : Pbar) : M Pbar :=
  match futures with
  | [] => ret pbar
  | future :: rest =>
      let* pbar := loop_body future pbar in
      for_each rest pbar
  end.

(** [tqdm(total=len(files), ...)]: a new bar at zero, drawn once.  The
    display starts afresh with it. *)
Definition tqdm (total : Z) : M Pbar :=
  let pbar := Build_Pbar 0 total None in
  modify (set_display (fun _ => [pbar])) >> ret pbar.

(** [print_summary] *)
Definition print_summary : M unit :=
  let* elapsed := elapsed_since_start in
  let* st := get in
  let total := success (stats st) + failed (stats st) in
  let* rate := rate_of (success (stats st)) elapsed in
  logger_summary Rule >>
  logger_summary Title >>
  logger_summary Rule >>
  logger_summary (TotalFiles total) >>
  logger_summary (Successful (success (stats st))) >>
  logger_summary (Failed (failed (stats st))) >>
  (let* data := lift (utils.format_bytes (bytes_transferred (stats st))) in
   logger_summary (DataTransferred data)) >>
  logger_summary (TimeElapsed elapsed) >>
  logger_summary (UploadRate rate) >>
  (if 0 <? total then
     let* estimated_hours :=
       (if is_positive rate
        then let* x := truediv 3000000 rate in truediv x 3600
        else ret 0%Q) in
     logger_summary (Estimated estimated_hours)
   else ret tt) >>
  logger_summary Rule.

(** [sync] *)
Definition sync (files : list (string * string)) : M unit :=
  match files with
  | [] => logger WARNING "No files to sync"
  | _ =>
      logger INFO ((if dry_run config then "DRY RUN: " else "") +:+ "Syncing "
                   +:+ pretty (length files) +:+ " files with "
                   +:+ pretty (max_workers config) +:+ " workers") >>
      (let* t := time_time env in
       modify (set_stats (fun s =>
         Build_Stats (success s) (failed s) (bytes_transferred s) (Some t)))) >>
      ThreadPoolExecutor (max_workers config) >>
      let futures := submit_all files in
      (let* pbar := tqdm (Z.of_nat (length files)) in
       for_each (as_completed env futures) pbar) >>
      print_summary
  end.

(** The state of [sync] after the first [k] rounds of its loop: the same
    prologue, then the loop body on the first [k] completed futures. *)
Definition sync_rounds (k : nat) (files : list (string * string)) : M Pbar :=
  logger INFO ((if dry_run config then "DRY RUN: " else "") +:+ "Syncing "
               +:+ pretty (length files) +:+ " files with "
               +:+ pretty (max_workers config) +:+ " workers") >>
  (let* t := time_time env in
   modify (set_stats (fun s =>
     Build_Stats (success s) (failed s) (bytes_transferred s) (Some t)))) >>
  ThreadPoolExecutor (max_workers config) >>
  let* pbar := tqdm (Z.of_nat (length files)) in
  for_each (take k (as_completed env (submit_all files))) pbar.

(** *** Vocabulary for the statements below *)

(** The part of the state that only the aggregation loop changes. *)
Definition same_aggregate (st st' : State) : Prop :=
  stats st' = stats st /\ history st' = history st /\
  display st' = display st /\ clock_reads st' = clock_reads st.

(** Every cached client was built by an earlier [boto3.client] call, and
    no client sits in two threads' slots. *)
Definition cache_inv (st : State) : Prop :=
  (forall t c, thread_local st !! t = Some c -> (c < boto3_calls st)%nat) /\
  (forall t1 t2 c, thread_local st !! t1 = Some c ->
                   thread_local st !! t2 = Some c -> t1 = t2).

(** [sub] occurs in [s]. *)
Definition contains (s sub : string) : Prop :=
  exists pre post, s = pre +:+ sub +:+ post.

(** The put [upload_file] issues with client [c]. *)
Definition put_of (c : nat) (file_path s3_key : string) : PutCall :=
  {| put_client := c;
     put_filename := file_path;
     put_bucket := s3_bucket config;
     put_key := s3_key;
     put_config := transfer_config;
     put_storage_class := s3_storage_class config |}.

Definition failure_of (file_path : string) (e : exn) : Outcome :=
  (false, file_path +:+ ": " +:+ exn_str e, 0).

Definition log_failure (file_path : string) (e : exn) (st : State) : State :=
  set_log (fun l => l ++ [Log ERROR ("Error uploading " +:+ file_path +:+ ": " +:+ exn_str e)]) st.

(** [self.stats['success'] / elapsed if elapsed > 0 else 0] as a value. *)
Definition rate_value (nsuccess : Z) (elapsed : Q) : Q :=
  if is_positive elapsed then (inject_Z nsuccess / elapsed)%Q else 0%Q.

(** The failed-counts the bar has shown, oldest first. *)
Definition shown_failed (d : list Pbar) : list Z :=
  omap (fun p => snd <$> pbar_postfix p) d.

(** [o] is an outcome [upload_file] can return for future [f]: a success
    with the path and the size of the file, or a failure whose detail is
    the path and a cause. *)
Definition outcome_of (f : Future) (o : Outcome) : Prop :=
  (exists file_size, getsize env (fut_path f) = Ok file_size /\
                     o = (true, fut_path f, file_size)) \/
  (exists e, o = failure_of (fut_path f) e).

(** What holds between two rounds of the aggregation loop of a run on
    [N] units that started at time [t0], after [k] rounds, in state [st]
    with the bar [pbar]. *)
Record loop_inv (N : Z) (t0 : Q) (k : nat) (st : State) (pbar : Pbar) : Prop := {
  inv_start : start_time (stats st) = Some t0;
  inv_stats :
    stats st = foldl (fun s o => record o s) (Build_Stats 0 0 0 (Some t0))
                     (map snd (history st));
  inv_count : success (stats st) + failed (stats st) = Z.of_nat k;
  inv_nonneg : 0 <= success (stats st) /\ 0 <= failed (stats st);
  inv_history : length (history st) = k;
  inv_shape : Forall (fun fo => outcome_of fo.1 fo.2) (history st);
  inv_pbar : pbar_n pbar = Z.of_nat k /\ pbar_total pbar = N;
  inv_shown : last (display st) = Some pbar;
  inv_postfix :
    pbar_postfix pbar =
      if 0 <? success (stats st)
      then Some (rate_value (success (stats st))
                            (now env (Nat.pred (clock_reads st)) - t0),
                 failed (stats st))
      else None;
  inv_sorted : StronglySorted Z.le (shown_failed (display st));
  inv_bound : Forall (fun x => x <= failed (stats st)) (shown_failed (display st))
}.

(** The first bar of a run. *)
Definition pbar0 (files : list (string * string)) : Pbar :=
  Build_Pbar 0 (Z.of_nat (length files)) None.

(** A run of [get_s3_client] calls, one per entry of [tids] (the calling
    threads, in the order the calls happen).  The trace keeps, for each
    call, the state before it, its result and the state after it. *)
Fixpoint client_calls (tids : list nat) (st : State)
    : list (State * result nat * State) :=
  match tids with
  | [] => []
  | tid :: rest =>
      let '(r, st') := get_s3_client tid st in
      (st, r, st') :: client_calls rest st'
  end.

End Uploader.

(** *** pathlib, on POSIX

    A path object is its root ([""], ["/"] or ["//"]) and its
    components.  The text of a path and the path of a text are those of
    [PurePosixPath]: runs of slashes and [.] components disappear, an
    empty path reads ["."], two leading slashes (and only two) are kept. *)

Record PurePath := { path_root : string; path_parts : list string }.

(** [s.split('/')] *)
Fixpoint split_slash (s : string) : list string :=
  match s with
  | EmptyString => [EmptyString]
  | String c rest =>
      if Ascii.eqb c "/"%char then EmptyString :: split_slash rest
      else match split_slash rest with
           | x :: xs => String c x :: xs
           | [] => [String c EmptyString]
           end
  end.

(** [posixpath.splitroot]: the root and what follows it. *)
Definition splitroot (s : string) : string * string :=
  match s with
  | String c1 rest1 =>
      if Ascii.eqb c1 "/"%char then
        match rest1 with
        | String c2 rest2 =>
            if Ascii.eqb c2 "/"%char then
              match rest2 with
              | String c3 _ => if Ascii.eqb c3 "/"%char then ("/", rest1) else ("//", rest2)
              | EmptyString => ("//", rest2)
              end
            else ("/", rest1)
        | EmptyString => ("/", rest1)
        end
      else ("", s)
  | EmptyString => ("", s)
  end.

(** [Path(s)] *)
Definition Path (s : string) : PurePath :=
  let '(root, rel) := splitroot s in
  {| path_root := root;
     path_parts := filter (fun x : string => x <> "" /\ x <> ".") (split_slash rel) |}.

(** ['/'.join(parts)] *)
Fixpoint join_slash (parts : list string) : string :=
  match parts with
  | [] => ""
  | [x] => x
  | x :: rest => x +:+ "/" +:+ join_slash rest
  end.

(** [str(p)] *)
Definition path_str (p : PurePath) : string :=
  let s := path_root p +:+ join_slash (path_parts p) in
  if bool_decide (s = "") then "." else s.

(** [p / name], for a [name] that is a single component, as the names
    [create_mock_data] appends are. *)
Definition path_div (p : PurePath) (name : string) : PurePath :=
  {| path_root := path_root p; path_parts := path_parts p ++ [name] |}.

(** [p.relative_to(other)] *)
Definition relative_to (p other : PurePath) : result PurePath :=
  if bool_decide (path_root p = path_root other /\
                  take (length (path_parts other)) (path_parts p) = path_parts other)
  then Ok {| path_root := "";
             path_parts := drop (length (path_parts other)) (path_parts p) |}
  else Err (Exn ValueError ("'" +:+ path_str p +:+ "' is not in the subpath of '"
                            +:+ path_str other +:+ "'")).

(** *** Module-level functions *)

Section Main.

Variable env : Env.

(** [f"{i:04d}"] *)
Definition pad4 (i : Z) : string :=
  if i <? 10 then "000" +:+ pretty i
  else if i <? 100 then "00" +:+ pretty i
  else if i <? 1000 then "0" +:+ pretty i
  else pretty i.

(** [a // b] on Python ints. *)
Definition floordiv (a b : Z) : M Z :=
  if b =? 0
  then raise (Exn ZeroDivisionError "integer division or modulo by zero")
  else ret (a / b).

(** [for x in xs: ys.extend(body(x))], with a body that may raise. *)
Fixpoint for_extend {A B} (xs : list A) (body : A -> M (list B)) : M (list B) :=
  match xs with
  | [] => ret []
  | x :: rest =>
      let* ys := body x in
      let* zs := for_extend rest body in
      ret (ys ++ zs)
  end.

(** The pair appended for file [j] of the directory [dir_path], lines
    168-175.  On POSIX [os.sep] is ["/"], so the replacement of line 174
    changes nothing. *)
Definition mock_entry (base dir_path : PurePath) (j : Z) : M (list (string * string)) :=
  let file_path := path_div dir_path ("file_" +:+ pad4 j +:+ ".txt") in
  let* relative := lift (relative_to file_path base) in
  let s3_key := path_str relative in
  ret [(path_str file_path, s3_key)].

(** [create_mock_data(base_path, num_files)]: the list of
    [(path, key)] pairs it returns.  The path object it is given is
    [Path(base_path)].  The directories and files it writes are the
    environment's business; a failure while writing them is
    [mock_tree_error]. *)
Definition create_mock_data (base_path : string) (num_files : Z)
    : M (list (string * string)) :=
  let base := Path base_path in
  logger INFO ("Creating " +:+ pretty num_files +:+ " mock files...") >>
  match mock_tree_error env num_files with
  | Some e => raise e
  | None =>
      let* q := floordiv num_files 10 in
      let num_dirs := Z.min 100 q in
      let* files_per_dir := floordiv num_files num_dirs in
      let* files :=
        for_extend (seqZ 0 num_dirs) (fun i =>
          let dir_path := path_div base ("dir_" +:+ pad4 i) in
          for_extend (seqZ 0 files_per_dir) (mock_entry base dir_path)) in
      logger INFO ("Created " +:+ pretty (length files) +:+ " mock files in "
                   +:+ path_str base) >>
      ret files
  end.

(** [utils.setup_logging(level)]: installs a handler, then sets the root
    logger's level to [getattr(logging, level.upper())], which raises for
    a name that is no level of the [logging] module.  Nothing of the
    modelled state changes. *)
Definition setup_logging (lvl : string) : M unit :=
  match level_error env lvl with
  | Some e => raise e
  | None => ret tt
  end.

(** [main], with the parsed command line ([--mock], [--mock-files]) and
    the field values [Config()] starts from. *)
Definition main (args_mock : bool) (args_mock_files : Z) (fields : Config) : M unit :=
  let* config := lift (config.new fields) in
  setup_logging (log_level config) >>
  logger_summary Rule >>
  logger INFO "SMB TO S3 SYNC - OPTIMIZED WITH BOTO3" >>
  logger_summary Rule >>
  logger INFO ("Mode: " +:+ (if args_mock || mock_mode config then "MOCK" else "PRODUCTION")) >>
  logger INFO ("Dry Run: " +:+ (if dry_run config then "True" else "False")) >>
  logger INFO ("S3 Bucket: " +:+ s3_bucket config) >>
  logger INFO ("Max Workers: " +:+ pretty (max_workers config)) >>
  logger_summary Rule >>
  let* files :=
    (if args_mock || mock_mode config
     then create_mock_data "/app/test-data/mock" args_mock_files
     else logger INFO "Connecting to SMB share..." >>
          lift utils.SMBHandler_list_all_files) in
  init >>
  sync env config files >>
  logger INFO "✅ Sync completed!".

End Main.

(** *** Totals *)

(** The totals of a collection of outcomes. *)
Definition tally (os : list Outcome) : Z * Z * Z :=
  (Z.of_nat (length (filter (fun o : Outcome => o.1.1 = true) os)),
   Z.of_nat (length (filter (fun o : Outcome => o.1.1 = false) os)),
   foldr (fun (o : Outcome) acc => (if o.1.1 then o.2 else 0) + acc) 0 os).

Definition totals (s : Stats) : Z * Z * Z :=
  (success s, failed s, bytes_transferred s).


(** *** Vocabulary for the properties of whole runs *)

Section RunVocabulary.
Variable env : Env.
Variable config : Config.

(** The state in which the aggregation loop of [sync files] starts when
    [sync] is entered in [st] with a non-empty list and a usable pool. *)
Definition after_prologue (files : list (string * string)) (st : State) : State :=
  set_display (fun _ => [pbar0 files])
    (set_stats (fun s => Build_Stats (success s) (failed s) (bytes_transferred s)
                                     (Some (now env (clock_reads st))))
       (set_clock_reads S
          (set_log (fun l => l ++ [Log INFO
             ((if dry_run config then "DRY RUN: " else "") +:+ "Syncing "
              +:+ pretty (length files) +:+ " files with "
              +:+ pretty (max_workers config) +:+ " workers")]) st))).

(** What [upload_file] itself logs for an outcome. *)
Definition worker_log (file_path s3_key : string) (o : Outcome) : list LogRecord :=
  if o.1.1 then
    if dry_run config
    then [Log DEBUG ("DRY RUN: Would upload " +:+ file_path +:+ " -> s3://"
                     +:+ s3_bucket config +:+ "/" +:+ s3_key)]
    else []
  else [Log ERROR ("Error uploading " +:+ o.1.2)].

(** What the aggregation loop logs for an outcome. *)
Definition loop_log (o : Outcome) : list LogRecord :=
  if o.1.1 then [] else [Log ERROR o.1.2].

Definition is_error (r : LogRecord) : bool :=
  match r with Log ERROR _ => true | _ => false end.

(** The number of ERROR records in a log. *)
Definition errors_logged (l : list LogRecord) : Z :=
  Z.of_nat (length (List.filter is_error l)).

Definition unit_of_put (c : PutCall) : string * string := (put_filename c, put_key c).

Definition unit_of_future (f : Future) : string * string := (fut_path f, fut_key f).

(** A put made the way [upload_file] makes it. *)
Definition put_as_configured (c : PutCall) : Prop :=
  put_bucket c = s3_bucket config /\
  put_storage_class c = s3_storage_class config /\
  put_config c = transfer_config.

(** The outcome of a dry-run transfer when clients can be built: it
    depends on the source file alone. *)
Definition dry_outcome (file_path : string) : Outcome :=
  match getsize env file_path with
  | Ok file_size => (true, file_path, file_size)
  | Err e => failure_of file_path e
  end.

(** The records [print_summary] logs when all goes well, for statistics
    [s], [elapsed] seconds and the formatted byte total [data]. *)
Definition summary_lines (s : Stats) (elapsed : Q) (data : string) : list LogRecord :=
  [Summary Rule; Summary Title; Summary Rule;
   Summary (TotalFiles (success s + failed s));
   Summary (Successful (success s));
   Summary (Failed (failed s));
   Summary (DataTransferred data);
   Summary (TimeElapsed elapsed);
   Summary (UploadRate (rate_value (success s) elapsed))]
  ++ (if 0 <? success s + failed s
      then [Summary (Estimated
              (if is_positive (rate_value (success s) elapsed)
               then (3000000 / rate_value (success s) elapsed / 3600)%Q
               else 0%Q))]
      else [])
  ++ [Summary Rule].


(** Everything but the log and the clock. *)
Definition same_but_log_and_clock (st st' : State) : Prop :=
  thread_local st' = thread_local st /\ stats st' = stats st /\
  boto3_calls st' = boto3_calls st /\ s3_calls st' = s3_calls st /\
  display st' = display st /\ history st' = history st.

End RunVocabulary.

(** The number of files [create_mock_data] lists for a request of [n]:
    [min(100, n // 10)] directories of [n // num_dirs] files each. *)
Definition mock_count (n : Z) : Z :=
  let num_dirs := Z.min 100 (n / 10) in
  Z.max 0 num_dirs * Z.max 0 (n / num_dirs).

End sync.

(** ** Concrete inputs used in examples *)

Module examples.
Import config sync.

(** The field values of [Config()] when none of the environment
    variables is set. *)
Definition default_config : Config := {|
  aws_region := "us-east-1";
  s3_bucket := "mi-bucket-test";
  s3_prefix := "";
  s3_storage_class := "INTELLIGENT_TIERING";
  smb_server := "";
  smb_share := "";
  smb_user := "";
  smb_password := "";
  smb_domain := "";
  max_workers := 50;
  dry_run := true;
  log_level := "INFO";
  mock_mode := false;
  mock_num_files := 10
|}.

(** The same with [MOCK_MODE=true], two workers and the given
    [DRY_RUN]. *)
Definition mock_config (dry : bool) : Config := {|
  aws_region := "us-east-1";
  s3_bucket := "mi-bucket-test";
  s3_prefix := "";
  s3_storage_class := "INTELLIGENT_TIERING";
  smb_server := "";
  smb_share := "";
  smb_user := "";
  smb_password := "";
  smb_domain := "";
  max_workers := 2;
  dry_run := dry;
  log_level := "INFO";
  mock_mode := true;
  mock_num_files := 10
|}.

Definition no_such_file (p : string) : exn :=
  Exn FileNotFoundError ("[Errno 2] No such file or directory: '" +:+ p +:+ "'").

(** [s.upper()] for a string of ASCII characters. *)
Definition upper_char (c : Ascii.ascii) : Ascii.ascii :=
  let n := Ascii.nat_of_ascii c in
  if ((97 <=? n) && (n <=? 122))%nat then Ascii.ascii_of_nat (n - 32) else c.

Fixpoint upper (s : string) : string :=
  match s with
  | EmptyString => EmptyString
  | String c rest => String (upper_char c) (upper rest)
  end.

(** The names of the levels of the [logging] module. *)
Definition level_names : list string :=
  ["CRITICAL"; "FATAL"; "ERROR"; "WARNING"; "WARN"; "INFO"; "DEBUG"; "NOTSET"].

Definition no_such_level (l : string) : exn :=
  Exn AttributeError ("module 'logging' has no attribute '" +:+ upper l +:+ "'").

(** A world where every path except "missing" is a file of 100 bytes,
    clients can always be built, the second put is refused, the clock
    ticks once per reading, the second pending future always completes
    first, future [i] runs on thread [i mod max_workers], and a level
    name is accepted when, in upper case, it is one of [level_names]. *)
Definition env : Env := {|
  getsize := fun p =>
    if bool_decide (p = "missing") then Err (no_such_file p) else Ok 100;
  client_error := fun _ _ => None;
  put_error := fun k _ =>
    if bool_decide (k = 1%nat) then Some (Exn ClientError "AccessDenied") else None;
  now := fun k => inject_Z (Z.of_nat k);
  pick := fun _ => 1%nat;
  worker := fun i => i;
  mock_tree_error := fun _ => None;
  level_error := fun l =>
    if bool_decide (upper l ∈ level_names) then None else Some (no_such_level l)
|}.

Definition files : list (string * string) :=
  [("a", "ka"); ("missing", "km"); ("c", "kc"); ("d", "kd")].

(** The same world, except that [boto3.client] always raises. *)
Definition env_without_clients : Env := {|
  getsize := getsize env;
  client_error := fun _ _ => Some (Exn (OtherException "NoRegionError") "You must specify a region.");
  put_error := put_error env;
  now := now env;
  pick := pick env;
  worker := worker env;
  mock_tree_error := mock_tree_error env;
  level_error := level_error env
|}.


(** A production configuration: bucket and SMB server set, mock mode
    off, and the given [LOG_LEVEL]. *)
Definition production_config (lvl : string) : Config := {|
  aws_region := "us-east-1";
  s3_bucket := "mi-bucket-test";
  s3_prefix := "";
  s3_storage_class := "INTELLIGENT_TIERING";
  smb_server := "fileserver";
  smb_share := "share";
  smb_user := "";
  smb_password := "";
  smb_domain := "";
  max_workers := 50;
  dry_run := true;
  log_level := lvl;
  mock_mode := false;
  mock_num_files := 10
|}.

(** [mock_config false] with [MAX_WORKERS=0]. *)
Definition no_worker_config : Config := {|
  aws_region := "us-east-1";
  s3_bucket := "mi-bucket-test";
  s3_prefix := "";
  s3_storage_class := "INTELLIGENT_TIERING";
  smb_server := "";
  smb_share := "";
  smb_user := "";
  smb_password := "";
  smb_domain := "";
  max_workers := 0;
  dry_run := false;
  log_level := "INFO";
  mock_mode := true;
  mock_num_files := 10
|}.

(** An uploader in the middle of a run: one success of 100 bytes, started
    at time 5. *)
Definition started : State :=
  set_stats (fun _ => Build_Stats 1 0 100 (Some (inject_Z 5))) boot.

End examples.

(** * Properties *)

Import config sync.

(** ** utils.format_bytes *)

Section FormatBytes.
Import utils.

Lemma float_of_int_exact n : Z.abs n < 2 ^ 53 -> float_of_int n = Ok n.
Proof.
  intros H. unfold float_of_int.
  destruct (Z.ltb_spec (Z.abs n) (2 ^ 53)); [reflexivity | lia].
Qed.

(** Between [1024^k] and [1024^(k+1)] the unit index is [k]. *)
Lemma unit_index_range n k :
  0 <= k <= 4 -> 1024 ^ k <= n < 1024 ^ (k + 1) -> unit_index n = k.
Proof.
  intros Hk [Hlo Hhi]. unfold unit_index.
  assert (Hpos : 0 < n) by (pose proof (Z.pow_pos_nonneg 1024 k); lia).
  change 1024 with (2 ^ 10) in Hlo, Hhi.
  rewrite <- Z.pow_mul_r in Hlo, Hhi by lia.
  apply Z.log2_le_pow2 in Hlo; [|exact Hpos].
  apply Z.log2_lt_pow2 in Hhi; [|exact Hpos].
  assert (Z.log2 n / 10 = k) by (symmetry; apply (Z.div_unique _ _ _ (Z.log2 n - 10 * k)); lia).
  lia.
Qed.

Lemma unit_index_small n : n < 1024 -> unit_index n = 0.
Proof.
  intros H. unfold unit_index.
  destruct (Z.le_gt_cases n 0) as [Hn|Hn].
  - rewrite Z.log2_nonpos by exact Hn. reflexivity.
  - change 1024 with (2 ^ 10) in H. apply Z.log2_lt_pow2 in H; [|exact Hn].
    pose proof (Z.log2_nonneg n).
    assert (Z.log2 n / 10 = 0) by (apply Z.div_small; lia). lia.
Qed.

Lemma unit_index_large n : 1024 ^ 5 <= n -> unit_index n = 5.
Proof.
  intros H. unfold unit_index.
  assert (Hpos : 0 < n) by lia.
  change (1024 ^ 5) with (2 ^ 50) in H.
  apply Z.log2_le_pow2 in H; [|exact Hpos].
  assert (5 <= Z.log2 n / 10) by (apply Z.div_le_lower_bound; lia). lia.
Qed.

(** On the exactly representable byte counts the loop computes what the
    report promises. *)
Lemma format_bytes_refines n :
  0 <= n < 2 ^ 53 -> format_bytes n = Ok (format_bytes_spec n).
Proof.
  intros [H0 H53].
  assert (Hf : float_of_int n = Ok n) by (apply float_of_int_exact; lia).
  unfold format_bytes, format_bytes_spec. cbn [format_bytes_loop lt_1024].
  destruct (Z.ltb_spec n 1024) as [H|H].
  { cbn [format_2f]. rewrite Hf. cbn [rbind].
    rewrite unit_index_small by exact H. reflexivity. }
  cbn [div_1024]. rewrite Hf. cbn [rbind lt_1024].
  destruct (Z.ltb_spec n (1024 * 1024 ^ Z.of_nat 1)) as [H1|H1].
  { rewrite (unit_index_range n 1) by lia. reflexivity. }
  cbn [div_1024 rbind lt_1024].
  destruct (Z.ltb_spec n (1024 * 1024 ^ Z.of_nat 2)) as [H2|H2].
  { rewrite (unit_index_range n 2) by lia. reflexivity. }
  cbn [div_1024 rbind lt_1024].
  destruct (Z.ltb_spec n (1024 * 1024 ^ Z.of_nat 3)) as [H3|H3].
  { rewrite (unit_index_range n 3) by lia. reflexivity. }
  cbn [div_1024 rbind lt_1024].
  destruct (Z.ltb_spec n (1024 * 1024 ^ Z.of_nat 4)) as [H4|H4].
  { rewrite (unit_index_range n 4) by lia. reflexivity. }
  cbn [div_1024 rbind format_2f].
  rewrite unit_index_large by lia. reflexivity.
Qed.

(** Conversion to [float] cannot overflow below [2^1000]. *)
Lemma float_of_int_ok n : Z.abs n < 2 ^ 1000 -> exists m, float_of_int n = Ok m.
Proof.
  intros H. unfold float_of_int.
  destruct (Z.ltb_spec (Z.abs n) (2 ^ 53)) as [|H53]; [eauto|].
  set (a := Z.abs n) in *.
  assert (Ha : 0 < a) by (pose proof (Z.pow_pos_nonneg 2 53); lia).
  assert (Hlog : 53 <= Z.log2 a) by (apply Z.log2_le_pow2; lia).
  assert (Hlog' : Z.log2 a < 1000) by (apply Z.log2_lt_pow2; lia).
  set (e := Z.log2 a - 52).
  assert (He : 0 < 2 ^ e) by (apply Z.pow_pos_nonneg; lia).
  assert (Hq : a / 2 ^ e < 2 ^ 53).
  { apply Z.div_lt_upper_bound; [exact He|].
    rewrite <- Z.pow_add_r by lia.
    replace (e + 53) with (Z.succ (Z.log2 a)) by lia.
    apply Z.log2_spec. exact Ha. }
  match goal with |- context [if ?c then a / 2 ^ e + 1 else a / 2 ^ e] =>
    set (q' := if c then a / 2 ^ e + 1 else a / 2 ^ e) end.
  assert (Hq' : q' <= 2 ^ 53) by (subst q'; destruct (_ || _); lia).
  assert (Hv : q' * 2 ^ e <= 2 ^ 53 * 2 ^ e) by (apply Z.mul_le_mono_nonneg_r; lia).
  rewrite <- Z.pow_add_r in Hv by lia.
  assert (Hlt : 2 ^ (53 + e) < 2 ^ 1024) by (apply Z.pow_lt_mono_r; lia).
  destruct (Z.leb_spec (2 ^ 1024) (q' * 2 ^ e)); [lia|eauto].
Qed.

(** [format_bytes] raises only if that conversion does. *)
Lemma format_bytes_ok n m : float_of_int n = Ok m -> exists s, format_bytes n = Ok s.
Proof.
  intros Hf. unfold format_bytes. cbn [format_bytes_loop lt_1024 div_1024 format_2f].
  rewrite Hf. cbn [rbind].
  repeat (match goal with |- context [if ?c then _ else _] => destruct c end;
          cbn [rbind lt_1024 div_1024 format_2f]; eauto).
Qed.

(** Rounding a count of at least [2^53] to a double keeps it at least
    [2^53]. *)
Lemma float_of_int_large n m : 2 ^ 53 <= n -> float_of_int n = Ok m -> 2 ^ 53 <= m.
Proof.
  intros Hn. unfold float_of_int.
  rewrite (Z.abs_eq n) by lia.
  destruct (Z.ltb_spec n (2 ^ 53)) as [|_]; [lia|].
  assert (Hpos : 0 < n) by lia.
  assert (Hlog : 53 <= Z.log2 n) by (apply Z.log2_le_pow2; lia).
  set (e := Z.log2 n - 52).
  assert (He : 0 < 2 ^ e) by (apply Z.pow_pos_nonneg; lia).
  assert (Hq : 2 ^ 52 <= n / 2 ^ e).
  { apply Z.div_le_lower_bound; [exact He|].
    rewrite Z.mul_comm, <- Z.pow_add_r by lia.
    replace (52 + e) with (Z.log2 n) by lia.
    apply Z.log2_spec. exact Hpos. }
  match goal with |- context [if ?c then n / 2 ^ e + 1 else n / 2 ^ e] =>
    set (q' := if c then n / 2 ^ e + 1 else n / 2 ^ e) end.
  assert (Hq' : 2 ^ 52 <= q') by (subst q'; destruct (_ || _); lia).
  destruct (Z.leb_spec (2 ^ 1024) (q' * 2 ^ e)); [discriminate|].
  intros [= <-]. rewrite Z.sgn_pos by exact Hpos.
  assert (2 ^ 52 * 2 ^ 1 <= q' * 2 ^ e).
  { apply Z.mul_le_mono_nonneg; try lia. apply Z.pow_le_mono_r; lia. }
  change (2 ^ 52 * 2 ^ 1) with (2 ^ 53) in *. lia.
Qed.

(** Beyond the exactly representable counts the unit is PB and the number
    shown is the rounded count over [1024^5]. *)
Lemma format_bytes_beyond_exact n m :
  2 ^ 53 <= n -> float_of_int n = Ok m ->
  format_bytes n = Ok (fixed2 m (1024 ^ 5) +:+ " PB").
Proof.
  intros Hn Hf. pose proof (float_of_int_large n m Hn Hf) as Hm.
  unfold format_bytes. cbn [format_bytes_loop lt_1024].
  destruct (Z.ltb_spec n 1024); [lia|].
  cbn [div_1024]. rewrite Hf. cbn [rbind lt_1024].
  repeat (match goal with |- context [?a <? ?b] =>
            destruct (Z.ltb_spec a b); [lia|] end;
          cbn [div_1024 rbind lt_1024]).
  reflexivity.
Qed.

(** A tie goes to the even hundredth, as in Python: 1152 / 1024 is
    exactly 1.125. *)
Example format_bytes_tie : format_bytes 1152 = Ok "1.12 KB".
Proof. vm_compute. reflexivity. Qed.

(** Above 2^53 the count is first rounded to a double. *)
Example format_bytes_rounds : format_bytes (2 ^ 53 + 1) = Ok "8.00 PB".
Proof. vm_compute. reflexivity. Qed.

(** There is no unit above PB. *)
Example format_bytes_top : format_bytes (1024 ^ 6) = Ok "1024.00 PB".
Proof. vm_compute. reflexivity. Qed.

(** C7. [format_bytes] writes a byte count in base-1024 units
    B/KB/MB/GB/TB/PB with two decimals: [format_bytes(0)] is "0.00 B",
    [format_bytes(1536)] is "1.50 KB", [format_bytes(1024**4)] is
    "1.00 TB", and for every count below [2^53] the result is the count
    divided by the largest unit not above it, with two decimals, followed
    by that unit's name. *)
Theorem format_bytes_human_readable :
  format_bytes 0 = Ok "0.00 B" /\
  format_bytes 1536 = Ok "1.50 KB" /\
  format_bytes (1024 ^ 4) = Ok "1.00 TB" /\
  forall n, 0 <= n < 2 ^ 53 -> format_bytes n = Ok (format_bytes_spec n).
Proof.
  split; [vm_compute; reflexivity|].
  split; [vm_compute; reflexivity|].
  split; [vm_compute; reflexivity|].
  exact format_bytes_refines.
Qed.

Lemma format_bytes_human_readable_witness :
  format_bytes 1048576 = Ok (format_bytes_spec 1048576) /\
  format_bytes_spec 1048576 = "1.00 MB".
Proof.
  split.
  - apply (proj2 (proj2 (proj2 format_bytes_human_readable)) 1048576). lia.
  - vm_compute. reflexivity.
Defined.

End FormatBytes.

(** ** config.Config *)

Section ConfigValidation.
Import config sync.

Lemma str_not_true s : str_not s = true <-> s = "".
Proof. unfold str_not. apply bool_decide_eq_true. Qed.

Lemma str_not_false s : str_not s = false <-> s <> "".
Proof. unfold str_not. apply bool_decide_eq_false. Qed.

Lemma post_init_err (c : Config) :
  (exists e, post_init c = Err e) <->
  mock_mode c = false /\ (s3_bucket c = "" \/ smb_server c = "").
Proof.
  unfold post_init.
  destruct (mock_mode c); cbn.
  { split; [intros [e He]; discriminate | intros [? _]; discriminate]. }
  destruct (str_not (s3_bucket c)) eqn:Hb.
  { apply str_not_true in Hb. split; eauto. }
  apply str_not_false in Hb.
  destruct (str_not (smb_server c)) eqn:Hs.
  { apply str_not_true in Hs. split; eauto. }
  apply str_not_false in Hs.
  split; [intros [e He]; discriminate | intros [_ [?|?]]; contradiction].
Qed.

Lemma post_init_cls (c : Config) e : post_init c = Err e -> exn_cls e = ValueError.
Proof.
  unfold post_init.
  destruct (mock_mode c); cbn; [discriminate|].
  destruct (str_not (s3_bucket c)); [intros [= <-]; reflexivity|].
  destruct (str_not (smb_server c)); [intros [= <-]; reflexivity|discriminate].
Qed.

Lemma new_post_init (c : Config) :
  config.new c = match post_init c with Ok _ => Ok c | Err e => Err e end.
Proof. unfold config.new, rbind. destruct (post_init c); reflexivity. Qed.

(** C5, as the code has it.  Constructing the configuration raises
    [ValueError] exactly when mock mode is off and the bucket name or the
    SMB server is empty; in every other case it returns the
    configuration.  The dry-run flag plays no part.  When construction
    raises, [main] stops there: the state is untouched, so nothing has
    been logged, no client built and no unit scheduled. *)
Theorem config_validation (c : Config) :
  ((exists e, config.new c = Err e) <->
   mock_mode c = false /\ (s3_bucket c = "" \/ smb_server c = "")) /\
  (forall e, config.new c = Err e -> exn_cls e = ValueError) /\
  (mock_mode c = true \/ (s3_bucket c <> "" /\ smb_server c <> "") ->
   config.new c = Ok c) /\
  (forall env args_mock args_mock_files st e,
     config.new c = Err e ->
     main env args_mock args_mock_files c st = (Err e, st)).
Proof.
  rewrite new_post_init.
  split; [|split; [|split]].
  - rewrite <- post_init_err.
    destruct (post_init c); split; intros [e' He]; eauto; discriminate.
  - intros e He. apply (post_init_cls c). destruct (post_init c); congruence.
  - intros H. destruct (post_init c) as [[]|e'] eqn:He; [reflexivity|].
    assert (Hx : exists e, post_init c = Err e) by eauto.
    apply post_init_err in Hx. destruct Hx as [Hm Hx].
    destruct H as [H|[H1 H2]]; [congruence|]. destruct Hx; contradiction.
  - intros env am amf st e He.
    unfold main, bind, lift. rewrite new_post_init.
    destruct (post_init c); [discriminate|]. congruence.
Qed.

Lemma config_validation_witness :
  config.new (examples.mock_config true) = Ok (examples.mock_config true).
Proof.
  apply (proj1 (proj2 (proj2 (config_validation (examples.mock_config true))))).
  left. reflexivity.
Defined.

(** C5 as stated fails: with dry-run on (and mock mode off) an empty SMB
    server is still rejected.  These are the values [Config()] gets from
    an empty environment. *)
Lemma config_dry_run_still_validated :
  ~ ((exists e, config.new examples.default_config = Err e) <->
     (mock_mode examples.default_config = false /\
      dry_run examples.default_config = false /\
      (s3_bucket examples.default_config = "" \/
       smb_server examples.default_config = ""))).
Proof.
  intros [H _].
  destruct H as [_ [Hd _]]; [|discriminate Hd].
  eexists. vm_compute. reflexivity.
Qed.

End ConfigValidation.

(** ** sync.OptimizedS3Uploader.get_s3_client: one call *)

Section CacheLookup.

Variable env : Env.
Variable config : Config.

Lemma get_s3_client_hit tid c st :
  thread_local st !! tid = Some c ->
  get_s3_client env config tid st = (Ok c, st).
Proof.
  intros H. unfold get_s3_client, bind, get, ret. cbn.
  rewrite bool_decide_eq_false_2 by (rewrite H; discriminate).
  cbn. rewrite H. reflexivity.
Qed.

Lemma get_s3_client_miss tid st :
  thread_local st !! tid = None ->
  get_s3_client env config tid st =
    match client_error env (boto3_calls st) (aws_region config) with
    | Some e => (Err e, set_boto3_calls S st)
    | None => (Ok (boto3_calls st),
               set_thread_local <[tid := boto3_calls st]> (set_boto3_calls S st))
    end.
Proof.
  intros H. unfold get_s3_client, bind, get, ret. cbn.
  rewrite bool_decide_eq_true_2 by exact H.
  unfold boto3_client, modify. cbn.
  destruct (client_error env (boto3_calls st) (aws_region config)); cbn; [reflexivity|].
  rewrite lookup_insert_eq. reflexivity.
Qed.

(** The three ways a call can go: the slot is filled; the slot is empty
    and [boto3.client] raises; the slot is empty and is filled with a new
    client. *)
Lemma get_s3_client_cases tid st r st' :
  get_s3_client env config tid st = (r, st') ->
  (exists c, thread_local st !! tid = Some c /\ r = Ok c /\ st' = st) \/
  (thread_local st !! tid = None /\
   exists e, client_error env (boto3_calls st) (aws_region config) = Some e /\
             r = Err e /\ st' = set_boto3_calls S st) \/
  (thread_local st !! tid = None /\
   client_error env (boto3_calls st) (aws_region config) = None /\
   r = Ok (boto3_calls st) /\
   st' = set_thread_local <[tid := boto3_calls st]> (set_boto3_calls S st)).
Proof.
  destruct (thread_local st !! tid) as [c|] eqn:Htl.
  - rewrite (get_s3_client_hit _ _ _ Htl). intros [= <- <-]. left. eauto.
  - rewrite (get_s3_client_miss _ _ Htl).
    destruct (client_error _ _ _) as [e|] eqn:He; intros [= <- <-]; right.
    + left. eauto.
    + right. eauto.
Qed.

End CacheLookup.

(** Split a hypothesis [H : get_s3_client .. = (r, st')] into those three
    cases, substituting the result and the final state. *)
Ltac client_call H :=
  let c := fresh "c" in
  let e := fresh "e" in
  let Htl := fresh "Htl" in
  let Herr := fresh "Herr" in
  apply get_s3_client_cases in H;
  destruct H as [(c & Htl & -> & ->)|[(Htl & e & Herr & -> & ->)|(Htl & Herr & -> & ->)]].

(** ** sync.OptimizedS3Uploader.upload_file: one transfer *)

Section Transfer.
Import config sync.

Variable env : Env.
Variable config : Config.

Lemma same_aggregate_refl st : same_aggregate st st.
Proof. repeat split. Qed.

Lemma same_aggregate_trans st1 st2 st3 :
  same_aggregate st1 st2 -> same_aggregate st2 st3 -> same_aggregate st1 st3.
Proof. unfold same_aggregate. intuition congruence. Qed.

(** [get_s3_client] issues no put and leaves the aggregate alone. *)
Lemma get_s3_client_frame tid st r st' :
  get_s3_client env config tid st = (r, st') ->
  same_aggregate st st' /\ s3_calls st' = s3_calls st /\ log st' = log st.
Proof. intros Hcall. client_call Hcall; repeat split. Qed.

(** [upload_file] case by case. *)
Lemma upload_file_eq tid file_path s3_key st :
  upload_file env config tid file_path s3_key st =
  match getsize env file_path with
  | Err e => (Ok (failure_of file_path e), log_failure file_path e st)
  | Ok file_size =>
      match get_s3_client env config tid st with
      | (Err e, st1) => (Ok (failure_of file_path e), log_failure file_path e st1)
      | (Ok c, st1) =>
          if dry_run config then
            (Ok (true, file_path, file_size),
             set_log (fun l => l ++ [Log DEBUG ("DRY RUN: Would upload " +:+ file_path
                        +:+ " -> s3://" +:+ s3_bucket config +:+ "/" +:+ s3_key)]) st1)
          else
            let st2 := set_s3_calls (fun l => l ++ [put_of config c file_path s3_key]) st1 in
            match put_error env (length (s3_calls st1)) (put_of config c file_path s3_key) with
            | Some e => (Ok (failure_of file_path e), log_failure file_path e st2)
            | None => (Ok (true, file_path, file_size), st2)
            end
      end
  end.
Proof.
  unfold upload_file, try_except, bind, os_path_getsize, lift.
  destruct (getsize env file_path) as [sz|e]; [|reflexivity].
  destruct (get_s3_client env config tid st) as [[c|e] st1]; [|reflexivity].
  destruct (dry_run config); [reflexivity|].
  unfold s3_upload_file, put_of.
  destruct (put_error _ _ _); reflexivity.
Qed.

(** [upload_file] always returns an outcome, and leaves the aggregate
    alone. *)
Lemma upload_file_returns tid file_path s3_key st :
  exists o st',
    upload_file env config tid file_path s3_key st = (Ok o, st') /\
    same_aggregate st st' /\
    ((exists file_size, getsize env file_path = Ok file_size /\
                        o = (true, file_path, file_size)) \/
     (exists e, o = failure_of file_path e)).
Proof.
  rewrite upload_file_eq.
  destruct (getsize env file_path) as [sz|e].
  2:{ eexists _, _. split; [reflexivity|]. split; [repeat split|]. right. eauto. }
  destruct (get_s3_client env config tid st) as [[c|e] st1] eqn:Hc;
    apply get_s3_client_frame in Hc; destruct Hc as ((Hs & Hh & Hd & Hk) & _ & _).
  2:{ eexists _, _. split; [reflexivity|]. split; [repeat split; assumption|]. right. eauto. }
  destruct (dry_run config).
  { eexists _, _. split; [reflexivity|]. split; [repeat split; assumption|]. left. eauto. }
  cbn zeta. destruct (put_error _ _ _).
  - eexists _, _. split; [reflexivity|]. split; [repeat split; assumption|]. right. eauto.
  - eexists _, _. split; [reflexivity|]. split; [repeat split; assumption|]. left. eauto.
Qed.

Lemma string_app_nil_r (s : string) : s +:+ "" = s.
Proof.
  induction s as [|a s IH]; [reflexivity|].
  change (String a (s +:+ "") = String a s). rewrite IH. reflexivity.
Qed.

Lemma string_app_assoc (s1 s2 s3 : string) : (s1 +:+ s2) +:+ s3 = s1 +:+ s2 +:+ s3.
Proof.
  induction s1 as [|a s1 IH]; [reflexivity|].
  change (String a ((s1 +:+ s2) +:+ s3) = String a (s1 +:+ s2 +:+ s3)).
  rewrite IH. reflexivity.
Qed.

Lemma failure_detail file_path e :
  contains (failure_of file_path e).1.2 file_path /\
  contains (failure_of file_path e).1.2 (exn_str e).
Proof.
  split.
  - exists "", (": " +:+ exn_str e). reflexivity.
  - exists (file_path +:+ ": "), "". cbn [failure_of fst snd].
    rewrite string_app_nil_r, string_app_assoc. reflexivity.
Qed.

(** C3. [upload_file] never lets an exception out.  Whatever the
    arguments and the state, it returns an outcome.  If resolving the
    size raised, or if the put raised, the outcome is a failure whose
    detail is the source path, ": " and the text of that exception, with
    0 bytes.  Every failed outcome has 0 bytes and a detail containing
    the source path and a cause; every successful one has the source path
    as its detail. *)
Theorem upload_file_never_raises tid file_path s3_key st :
  exists o st',
    upload_file env config tid file_path s3_key st = (Ok o, st') /\
    (forall e, getsize env file_path = Err e ->
               o = (false, file_path +:+ ": " +:+ exn_str e, 0)) /\
    (forall file_size c st1 e,
       getsize env file_path = Ok file_size ->
       get_s3_client env config tid st = (Ok c, st1) ->
       dry_run config = false ->
       put_error env (length (s3_calls st1)) (put_of config c file_path s3_key) = Some e ->
       o = (false, file_path +:+ ": " +:+ exn_str e, 0)) /\
    (o.1.1 = true -> o.1.2 = file_path) /\
    (o.1.1 = false ->
     o.2 = 0 /\
     exists e, o.1.2 = file_path +:+ ": " +:+ exn_str e /\
               contains o.1.2 file_path /\ contains o.1.2 (exn_str e)).
Proof.
  destruct (upload_file_returns tid file_path s3_key st) as (o & st' & Hrun & _ & Hshape).
  exists o, st'. split; [exact Hrun|].
  rewrite upload_file_eq in Hrun.
  split; [|split; [|split]].
  - intros e He. rewrite He in Hrun. injection Hrun as <- _. reflexivity.
  - intros sz c st1 e Hsz Hc Hdry Hput.
    rewrite Hsz, Hc, Hdry in Hrun. cbn zeta in Hrun. rewrite Hput in Hrun.
    injection Hrun as <- _. reflexivity.
  - intros Hok. destruct Hshape as [(sz & _ & ->)|(e & ->)]; [reflexivity|discriminate Hok].
  - intros Hko. destruct Hshape as [(sz & _ & ->)|(e & ->)]; [discriminate Hko|].
    split; [reflexivity|]. exists e. split; [reflexivity|]. apply failure_detail.
Qed.

(** C10. In dry-run mode the size is resolved first: when
    [os.path.getsize] raises, [upload_file] returns a failed outcome with
    0 bytes whose detail is the path and the cause, and the only thing
    that changes is the log.  No client is looked up or built and no put
    is issued. *)
Theorem dry_run_keeps_source_errors tid file_path s3_key st e :
  dry_run config = true ->
  getsize env file_path = Err e ->
  upload_file env config tid file_path s3_key st =
    (Ok (false, file_path +:+ ": " +:+ exn_str e, 0), log_failure file_path e st) /\
  contains (file_path +:+ ": " +:+ exn_str e) file_path /\
  contains (file_path +:+ ": " +:+ exn_str e) (exn_str e) /\
  thread_local (log_failure file_path e st) = thread_local st /\
  boto3_calls (log_failure file_path e st) = boto3_calls st /\
  s3_calls (log_failure file_path e st) = s3_calls st.
Proof.
  intros _ He. rewrite upload_file_eq, He.
  split; [reflexivity|].
  pose proof (failure_detail file_path e) as [H1 H2].
  repeat split; assumption.
Qed.

(** C2, as the code has it.  In dry-run mode, for a unit whose source
    file exists, [upload_file] first obtains the worker's storage client
    (the cached one, or a new one built and cached on the worker's first
    use).  Provided the client is cached or can be built, the outcome is
    a success carrying the resolved size, and no put is issued: the list
    of storage calls is unchanged. *)
Theorem dry_run_upload tid file_path s3_key st file_size :
  dry_run config = true ->
  getsize env file_path = Ok file_size ->
  (thread_local st !! tid <> None \/
   client_error env (boto3_calls st) (aws_region config) = None) ->
  exists st',
    upload_file env config tid file_path s3_key st = (Ok (true, file_path, file_size), st') /\
    s3_calls st' = s3_calls st /\
    (forall c, thread_local st !! tid = Some c ->
               thread_local st' = thread_local st /\ boto3_calls st' = boto3_calls st) /\
    (thread_local st !! tid = None ->
     thread_local st' = <[tid := boto3_calls st]> (thread_local st) /\
     boto3_calls st' = S (boto3_calls st)).
Proof.
  intros Hdry Hsz Hcl. rewrite upload_file_eq, Hsz.
  destruct (thread_local st !! tid) as [c|] eqn:Htl.
  - rewrite (get_s3_client_hit _ _ _ _ _ Htl), Hdry.
    eexists. split; [reflexivity|]. split; [reflexivity|].
    split; [intros; split; reflexivity | discriminate].
  - destruct Hcl as [Hcl|Hcl]; [contradiction|].
    rewrite (get_s3_client_miss _ _ _ _ Htl), Hcl, Hdry.
    eexists. split; [reflexivity|]. split; [reflexivity|].
    split; [discriminate | intros; split; reflexivity].
Qed.

End Transfer.

Lemma upload_file_never_raises_witness :
  exists o st',
    upload_file examples.env (examples.mock_config false) 0 "missing" "km" boot = (Ok o, st') /\
    o = (false, "missing: [Errno 2] No such file or directory: 'missing'", 0).
Proof.
  destruct (upload_file_never_raises examples.env (examples.mock_config false)
              0%nat "missing" "km" boot) as (o & st' & Hrun & Hsize & _).
  exists o, st'. split; [exact Hrun|].
  apply (Hsize (examples.no_such_file "missing")). reflexivity.
Defined.

Lemma dry_run_keeps_source_errors_witness :
  upload_file examples.env (examples.mock_config true) 0 "missing" "km" boot =
    (Ok (false, "missing: [Errno 2] No such file or directory: 'missing'", 0),
     log_failure "missing" (examples.no_such_file "missing") boot).
Proof.
  apply (dry_run_keeps_source_errors examples.env (examples.mock_config true)
           0%nat "missing" "km" boot (examples.no_such_file "missing"));
    reflexivity.
Defined.

Lemma dry_run_upload_witness :
  exists st',
    upload_file examples.env (examples.mock_config true) 0 "a" "ka" boot =
      (Ok (true, "a", 100), st') /\
    s3_calls st' = [].
Proof.
  destruct (dry_run_upload examples.env (examples.mock_config true) 0%nat "a" "ka" boot 100)
    as (st' & Hrun & Hputs & _).
  - reflexivity.
  - reflexivity.
  - right. reflexivity.
  - exists st'. split; [exact Hrun | exact Hputs].
Defined.

(** C2 as stated fails: in dry-run mode [upload_file] does obtain the
    worker's storage client.  Starting from a fresh process, one dry-run
    upload of an existing file leaves one client built. *)
Lemma dry_run_obtains_client :
  ~ (forall env config tid file_path s3_key st file_size,
       dry_run config = true ->
       getsize env file_path = Ok file_size ->
       (upload_file env config tid file_path s3_key st).1 = Ok (true, file_path, file_size) /\
       thread_local (upload_file env config tid file_path s3_key st).2 = thread_local st /\
       boto3_calls (upload_file env config tid file_path s3_key st).2 = boto3_calls st /\
       s3_calls (upload_file env config tid file_path s3_key st).2 = s3_calls st).
Proof.
  intros H.
  destruct (H examples.env (examples.mock_config true) 0%nat "a" "ka" boot 100
              eq_refl eq_refl) as (_ & _ & Hcalls & _).
  vm_compute in Hcalls. discriminate Hcalls.
Qed.

(** ** sync.OptimizedS3Uploader.get_s3_client: one client per thread *)

Section Clients.

Variable env : Env.
Variable config : Config.

Lemma cache_inv_init st : cache_inv (init st).2.
Proof. split; cbn; intros *; rewrite lookup_empty; discriminate. Qed.

(** A call keeps what the other slots hold. *)
Lemma get_s3_client_keeps tid st r st' t c :
  get_s3_client env config tid st = (r, st') ->
  thread_local st !! t = Some c -> thread_local st' !! t = Some c.
Proof.
  intros Hcall Ht. client_call Hcall; cbn; try exact Ht.
  rewrite lookup_insert_ne; [exact Ht | congruence].
Qed.

(** A call that returns a client leaves it in the caller's slot. *)
Lemma get_s3_client_caches tid st c st' :
  get_s3_client env config tid st = (Ok c, st') ->
  thread_local st' !! tid = Some c.
Proof.
  intros Hcall. remember (Ok c) as r eqn:Hr.
  client_call Hcall; try discriminate Hr; injection Hr as ->.
  - assumption.
  - cbn. apply lookup_insert_eq.
Qed.

(** Calls by other threads leave a thread's slot empty. *)
Lemma get_s3_client_other tid st r st' t :
  get_s3_client env config tid st = (r, st') ->
  t <> tid -> thread_local st !! t = None -> thread_local st' !! t = None.
Proof.
  intros Hcall Hne Ht. client_call Hcall; cbn; try exact Ht.
  rewrite lookup_insert_ne; [exact Ht | congruence].
Qed.

Lemma cache_inv_step tid st r st' :
  cache_inv st -> get_s3_client env config tid st = (r, st') -> cache_inv st'.
Proof.
  intros [Hlt Hinj] Hcall. client_call Hcall.
  - split; assumption.
  - split; [|exact Hinj]. cbn. intros t c Ht. apply Hlt in Ht. lia.
  - split; cbn.
    + intros t c. rewrite lookup_insert. case_decide.
      * intros [= <-]. lia.
      * intros Ht. apply Hlt in Ht. lia.
    + intros t1 t2 c. rewrite !lookup_insert. repeat case_decide; subst.
      * reflexivity.
      * intros [= <-] Ht. apply Hlt in Ht. lia.
      * intros Ht [= <-]. apply Hlt in Ht. lia.
      * apply Hinj.
Qed.

(** Once a client is in [W]'s slot, every later call from [W] returns
    it and changes nothing. *)
Lemma client_calls_cached tids : forall st W c j,
  thread_local st !! W = Some c ->
  tids !! j = Some W ->
  exists sj, client_calls env config tids st !! j = Some (sj, Ok c, sj).
Proof.
  induction tids as [|tid rest IH]; intros st W c j Hc Hj; [discriminate|].
  cbn [client_calls].
  destruct (get_s3_client env config tid st) as [r st'] eqn:Hcall.
  destruct j as [|j]; cbn in Hj |- *.
  - injection Hj as ->. rewrite (get_s3_client_hit _ _ _ _ _ Hc) in Hcall.
    injection Hcall as <- <-. eauto.
  - eapply IH; [|exact Hj]. eapply get_s3_client_keeps; eassumption.
Qed.

(** A client in [W1]'s slot is never returned to another thread. *)
Lemma client_calls_not_shared tids : forall st W1 c1 j W2 c2 sj sj',
  cache_inv st ->
  thread_local st !! W1 = Some c1 ->
  W1 <> W2 ->
  tids !! j = Some W2 ->
  client_calls env config tids st !! j = Some (sj, Ok c2, sj') ->
  c1 <> c2.
Proof.
  induction tids as [|tid rest IH]; intros st W1 c1 j W2 c2 sj sj' Hinv Hc Hne Hj Htr;
    [discriminate|].
  cbn [client_calls] in Htr.
  destruct (get_s3_client env config tid st) as [r st'] eqn:Hcall.
  destruct j as [|j]; cbn in Hj, Htr.
  - injection Hj as ->. injection Htr as <- -> <-.
    destruct Hinv as [Hlt Hinj].
    destruct (thread_local st !! W2) as [c0|] eqn:Htl.
    + rewrite (get_s3_client_hit _ _ _ _ _ Htl) in Hcall. injection Hcall as <-.
      intros <-. apply Hne. eapply Hinj; eassumption.
    + rewrite (get_s3_client_miss _ _ _ _ Htl) in Hcall.
      destruct (client_error _ _ _); [discriminate|]. injection Hcall as <- _.
      apply Hlt in Hc. lia.
  - eapply (IH st'); try eassumption.
    + eapply cache_inv_step; eassumption.
    + eapply get_s3_client_keeps; eassumption.
Qed.

(** Two calls of one run, the earlier one returning [c1]. *)
Lemma client_calls_pair tids : forall st i j W1 W2 c1 si si',
  cache_inv st ->
  (i < j)%nat ->
  tids !! i = Some W1 ->
  tids !! j = Some W2 ->
  client_calls env config tids st !! i = Some (si, Ok c1, si') ->
  (W1 = W2 -> exists sj, client_calls env config tids st !! j = Some (sj, Ok c1, sj)) /\
  (W1 <> W2 -> forall c2 sj sj',
     client_calls env config tids st !! j = Some (sj, Ok c2, sj') -> c1 <> c2).
Proof.
  induction tids as [|tid rest IH]; intros st i j W1 W2 c1 si si' Hinv Hij Hi Hj Htr;
    [discriminate|].
  cbn [client_calls] in Htr |- *.
  destruct (get_s3_client env config tid st) as [r st'] eqn:Hcall.
  assert (Hinv' : cache_inv st') by (eapply cache_inv_step; eassumption).
  destruct j as [|j]; [lia|].
  destruct i as [|i]; cbn in Hi, Hj, Htr |- *.
  - injection Hi as ->. injection Htr as <- -> <-.
    pose proof (get_s3_client_caches _ _ _ _ Hcall) as Hc.
    split.
    + intros <-. eapply client_calls_cached; eassumption.
    + intros Hne c2 sj sj' Hj2. eapply client_calls_not_shared; eassumption.
  - eapply (IH st'); try eassumption. lia.
Qed.

(** Before [W]'s first call its slot is empty. *)
Lemma client_calls_first tids : forall st i W si r si',
  thread_local st !! W = None ->
  (forall i', (i' < i)%nat -> tids !! i' <> Some W) ->
  client_calls env config tids st !! i = Some (si, r, si') ->
  thread_local si !! W = None.
Proof.
  induction tids as [|tid rest IH]; intros st i W si r si' Hnone Hfirst Htr;
    [discriminate|].
  cbn [client_calls] in Htr.
  destruct (get_s3_client env config tid st) as [r0 st'] eqn:Hcall.
  destruct i as [|i]; cbn in Htr.
  - injection Htr as <- _ _. exact Hnone.
  - eapply (IH st'); [| |exact Htr].
    + eapply get_s3_client_other; [exact Hcall| |exact Hnone].
      intros ->. apply (Hfirst 0%nat); [lia|reflexivity].
    + intros i' Hi'. apply (Hfirst (S i')). lia.
Qed.

Lemma client_calls_lookup tids : forall st i si r si',
  client_calls env config tids st !! i = Some (si, r, si') ->
  exists tid, tids !! i = Some tid /\ get_s3_client env config tid si = (r, si').
Proof.
  induction tids as [|tid rest IH]; intros st i si r si' Htr; [discriminate|].
  cbn [client_calls] in Htr.
  destruct (get_s3_client env config tid st) as [r0 st'] eqn:Hcall.
  destruct i as [|i]; cbn in Htr |- *.
  - injection Htr as <- <- <-. eauto.
  - eapply IH. exact Htr.
Qed.

(** C8. Take any sequence of [get_s3_client] calls made on a fresh
    uploader, each from some thread.  (1) If a call from thread [W]
    returned client [c], every later call from [W] returns the same [c]
    and leaves the state as it found it, so no client is built.  (2) The
    client returned by [W]'s first call is built by that very call.
    (3) Calls from two different threads never return the same
    client. *)
Theorem client_cache_per_thread (st0 : State) (tids : list nat) :
  (forall i j W c si si',
     (i < j)%nat -> tids !! i = Some W -> tids !! j = Some W ->
     client_calls env config tids (init st0).2 !! i = Some (si, Ok c, si') ->
     exists sj, client_calls env config tids (init st0).2 !! j = Some (sj, Ok c, sj)) /\
  (forall i W c si si',
     tids !! i = Some W ->
     (forall i', (i' < i)%nat -> tids !! i' <> Some W) ->
     client_calls env config tids (init st0).2 !! i = Some (si, Ok c, si') ->
     thread_local si !! W = None /\ c = boto3_calls si /\
     boto3_calls si' = S (boto3_calls si)) /\
  (forall i j W1 W2 c1 c2 si si' sj sj',
     W1 <> W2 -> tids !! i = Some W1 -> tids !! j = Some W2 ->
     client_calls env config tids (init st0).2 !! i = Some (si, Ok c1, si') ->
     client_calls env config tids (init st0).2 !! j = Some (sj, Ok c2, sj') ->
     c1 <> c2).
Proof.
  pose proof (cache_inv_init st0) as Hinv.
  split; [|split].
  - intros i j W c si si' Hij Hi Hj Htr.
    destruct (client_calls_pair tids _ i j W W c si si' Hinv Hij Hi Hj Htr) as [H _].
    apply H. reflexivity.
  - intros i W c si si' Hi Hfirst Htr.
    assert (Hnone : thread_local si !! W = None).
    { eapply client_calls_first; [|exact Hfirst|exact Htr]. cbn. apply lookup_empty. }
    split; [exact Hnone|].
    destruct (client_calls_lookup _ _ _ _ _ _ Htr) as (tid & Htid & Hcall).
    assert (tid = W) as -> by congruence.
    rewrite (get_s3_client_miss _ _ _ _ Hnone) in Hcall.
    destruct (client_error _ _ _); [discriminate|].
    injection Hcall as <- <-. split; reflexivity.
  - intros i j W1 W2 c1 c2 si si' sj sj' Hne Hi Hj Htri Htrj.
    destruct (Nat.lt_total i j) as [Hij|[->|Hji]].
    + destruct (client_calls_pair tids _ i j W1 W2 c1 si si' Hinv Hij Hi Hj Htri) as [_ H].
      eapply H; eassumption.
    + congruence.
    + destruct (client_calls_pair tids _ j i W2 W1 c2 sj sj' Hinv Hji Hj Hi Htrj) as [_ H].
      intros Heq. eapply (H (not_eq_sym Hne)); [exact Htri|]. congruence.
Qed.

End Clients.

Lemma client_cache_per_thread_witness :
  exists sj,
    client_calls examples.env (examples.mock_config false) [0; 1; 0]%nat (init boot).2 !! 2%nat
    = Some (sj, Ok 0%nat, sj).
Proof.
  destruct (client_cache_per_thread examples.env (examples.mock_config false) boot
              [0; 1; 0]%nat) as [Hsame _].
  eapply (Hsame 0%nat 2%nat 0%nat 0%nat); [lia|reflexivity|reflexivity|].
  vm_compute. reflexivity.
Defined.

(** ** sync.OptimizedS3Uploader.sync: the aggregation loop *)

Section Aggregation.

Variable env : Env.
Variable config : Config.

Lemma rate_of_eq n e st : rate_of n e st = (Ok (rate_value n e), st).
Proof.
  unfold rate_of, rate_value, truediv, is_positive.
  destruct (Qle_bool e 0) eqn:Hle; cbn; [reflexivity|].
  destruct (Qeq_bool e 0) eqn:Heq; [|reflexivity].
  apply Qeq_bool_iff in Heq.
  assert (Qle_bool e 0 = true) by (apply Qle_bool_iff; rewrite Heq; apply Qle_refl).
  congruence.
Qed.

(** One round of the loop, spelled out. *)
Lemma loop_body_eq f pbar st t0 :
  start_time (stats st) = Some t0 ->
  exists o st1,
    future_result env config f st = (Ok o, st1) /\
    outcome_of env f o /\
    let s' := record o (stats st) in
    let upd := Build_Pbar (pbar_n pbar + 1) (pbar_total pbar) (pbar_postfix pbar) in
    let rate := rate_value (success s') (now env (clock_reads st) - t0) in
    let post := Build_Pbar (pbar_n pbar + 1) (pbar_total pbar) (Some (rate, failed s')) in
    exists st',
      loop_body env config f pbar st =
        (Ok (if 0 <? success s' then post else upd), st') /\
      stats st' = s' /\
      history st' = history st ++ [(f, o)] /\
      display st' = display st ++ (if 0 <? success s' then [upd; post] else [upd]) /\
      clock_reads st' = (if 0 <? success s' then S (clock_reads st) else clock_reads st).
Proof.
  intros Ht0.
  destruct (upload_file_returns env config (thread_of env config f) (fut_path f) (fut_key f) st)
    as (o & st1 & Hrun & Hsame & Hshape).
  exists o, st1. split; [exact Hrun|]. split; [exact Hshape|].
  destruct Hsame as (Hs & Hh & Hd & Hk).
  unfold loop_body, bind. unfold future_result. rewrite Hrun.
  destruct o as [[ok msg] b].
  cbn zeta.
  destruct ok.
  - unfold record_outcome, modify, pbar_update, bind, get. cbn.
    rewrite Hs.
    destruct (0 <? success (stats st) + 1) eqn:Hpos.
    + unfold elapsed_since_start, time_time, bind, get. cbn. rewrite Hs, Ht0.
      unfold ret at 1. rewrite rate_of_eq. unfold pbar_set_postfix, bind, modify, ret. cbn.
      eexists. split; [rewrite ?Hs, ?Hk; reflexivity|]. cbn.
      rewrite ?Hs, ?Hk, ?Hh, ?Hd, <- ?app_assoc. repeat split; rewrite ?Ht0; reflexivity.
    + unfold ret. eexists. split; [reflexivity|]. cbn. rewrite ?Hs, ?Hk, ?Hh, ?Hd. repeat split.
  - unfold record_outcome, modify, logger, pbar_update, bind, get. cbn.
    rewrite Hs.
    destruct (0 <? success (stats st)) eqn:Hpos.
    + unfold elapsed_since_start, time_time, bind, get. cbn. rewrite Hs, Ht0.
      unfold ret at 1. rewrite rate_of_eq. unfold pbar_set_postfix, bind, modify, ret. cbn.
      eexists. split; [rewrite ?Hs, ?Hk; reflexivity|]. cbn.
      rewrite ?Hs, ?Hk, ?Hh, ?Hd, <- ?app_assoc. repeat split; rewrite ?Ht0; reflexivity.
    + unfold ret. eexists. split; [reflexivity|]. cbn. rewrite ?Hs, ?Hk, ?Hh, ?Hd. repeat split.
Qed.

(** [record] moves exactly one counter, by one, and adds the bytes on
    success only. *)
Lemma record_step (o : Outcome) (s : Stats) :
  start_time (record o s) = start_time s /\
  (o.1.1 = true ->
   success (record o s) = success s + 1 /\ failed (record o s) = failed s /\
   bytes_transferred (record o s) = bytes_transferred s + o.2) /\
  (o.1.1 = false ->
   success (record o s) = success s /\ failed (record o s) = failed s + 1 /\
   bytes_transferred (record o s) = bytes_transferred s).
Proof.
  destruct o as [[[] msg] b]; cbn; repeat split; discriminate.
Qed.

Lemma last_app_cons {A} (l : list A) (x : A) (l' : list A) :
  last (l ++ x :: l') = last (x :: l').
Proof.
  induction l as [|y l IH]; [reflexivity|].
  cbn [app]. destruct (l ++ x :: l') eqn:E; [destruct l; discriminate|].
  cbn [last]. exact IH.
Qed.

Lemma loop_body_inv N t0 k f pbar st :
  loop_inv env N t0 k st pbar ->
  exists o pbar' st',
    loop_body env config f pbar st = (Ok pbar', st') /\
    history st' = history st ++ [(f, o)] /\
    loop_inv env N t0 (S k) st' pbar'.
Proof.
  intros [Ht0 Hstats Hcount [Hs0 Hf0] Hhist Hshape [Hn Htot] Hshown Hpost Hsorted Hbound].
  destruct (loop_body_eq f pbar st t0 Ht0) as (o & st1 & _ & Ho & Hbody).
  cbn zeta in Hbody. destruct Hbody as (st' & Hrun & Hst & Hh & Hd & Hk).
  destruct (record_step o (stats st)) as (Hrt & Hrok & Hrko).
  eexists o, _, st'. split; [exact Hrun|]. split; [exact Hh|].
  assert (Hmono : success (stats st) <= success (stats st') /\
                  failed (stats st) <= failed (stats st') /\
                  success (stats st') + failed (stats st') = Z.of_nat (S k)).
  { rewrite Hst. destruct (o.1.1) eqn:Hok.
    - destruct (Hrok eq_refl) as (-> & -> & _). lia.
    - destruct (Hrko eq_refl) as (-> & -> & _). lia. }
  destruct Hmono as (Hms & Hmf & Hsum).
  assert (Hshown_upd :
    shown_failed [Build_Pbar (pbar_n pbar + 1) (pbar_total pbar) (pbar_postfix pbar)]
    = if 0 <? success (stats st) then [failed (stats st)] else []).
  { unfold shown_failed. cbn. rewrite Hpost. destruct (0 <? success (stats st)); reflexivity. }
  split.
  - rewrite Hst, Hrt. exact Ht0.
  - rewrite Hh, map_app, foldl_app. cbn. rewrite <- Hstats. exact Hst.
  - exact Hsum.
  - lia.
  - rewrite Hh, length_app. cbn. lia.
  - rewrite Hh. apply Forall_app. split; [exact Hshape|]. constructor; [exact Ho|constructor].
  - rewrite <- Hst. destruct (0 <? success (stats st')); cbn; split; lia.
  - rewrite Hd, <- Hst. destruct (0 <? success (stats st')).
    + rewrite last_app_cons. reflexivity.
    + rewrite last_app_cons. reflexivity.
  - rewrite <- Hst.
    destruct (0 <? success (stats st')) eqn:Hpos'; cbn.
    + rewrite Hk, <- Hst, Hpos'. reflexivity.
    + rewrite Hpost.
      destruct (Z.ltb_spec 0 (success (stats st))); [|reflexivity].
      apply Z.ltb_ge in Hpos'. lia.
  - rewrite Hd, <- Hst. unfold shown_failed in *. rewrite omap_app.
    fold (shown_failed (display st)).
    apply StronglySorted_app_2; [|exact Hsorted|].
    + intros x1 x2 Hx1 Hx2.
      rewrite Forall_forall in Hbound. apply Hbound in Hx1.
      destruct (0 <? success (stats st')); cbn in Hx2; rewrite Hpost in Hx2;
        destruct (0 <? success (stats st)); cbn in Hx2;
        repeat (apply elem_of_cons in Hx2 as [->|Hx2]); try (apply elem_of_nil in Hx2 as []); lia.
    + destruct (0 <? success (stats st')); cbn; rewrite Hpost;
        destruct (0 <? success (stats st)); cbn;
        repeat (constructor; try lia).
  - rewrite Hd, <- Hst. unfold shown_failed in *. rewrite omap_app.
    apply Forall_app. split.
    + eapply Forall_impl; [exact Hbound|]. cbn. intros; lia.
    + destruct (0 <? success (stats st')); cbn; rewrite Hpost;
        destruct (0 <? success (stats st)); cbn;
        repeat (constructor; try lia).
Qed.

Lemma for_each_inv N t0 fs : forall k pbar st,
  loop_inv env N t0 k st pbar ->
  exists pbar' st',
    for_each env config fs pbar st = (Ok pbar', st') /\
    map fst (history st') = map fst (history st) ++ fs /\
    loop_inv env N t0 (k + length fs) st' pbar'.
Proof.
  induction fs as [|f fs IH]; intros k pbar st Hinv.
  - exists pbar, st. split; [reflexivity|]. rewrite app_nil_r, Nat.add_0_r. split; [reflexivity|exact Hinv].
  - destruct (loop_body_inv N t0 k f pbar st Hinv) as (o & pbar1 & st1 & Hbody & Hh & Hinv1).
    destruct (IH (S k) pbar1 st1 Hinv1) as (pbar' & st' & Hrest & Hh' & Hinv').
    exists pbar', st'. split; [|split].
    + cbn [for_each]. unfold bind. rewrite Hbody. exact Hrest.
    + rewrite Hh', Hh, map_app. cbn. rewrite <- app_assoc. reflexivity.
    + cbn [length]. replace (k + S (length fs))%nat with (S k + length fs)%nat by lia. exact Hinv'.
Qed.

(** With a positive worker count, the prologue of [sync] leads to a
    state where the loop invariant holds for zero rounds. *)
Lemma sync_prologue files st :
  0 < max_workers config ->
  exists stp,
    (forall k, sync_rounds env config k files (init st).2 =
               for_each env config (take k (as_completed env (submit_all files)))
                 (pbar0 files) stp) /\
    (files <> [] ->
     sync env config files (init st).2 =
       match for_each env config (as_completed env (submit_all files)) (pbar0 files) stp with
       | (Ok _, st') => print_summary env st'
       | (Err e, st') => (Err e, st')
       end) /\
    loop_inv env (Z.of_nat (length files)) (now env (clock_reads st)) 0 stp (pbar0 files).
Proof.
  intros Hw.
  assert (Hexec : forall s, ThreadPoolExecutor (max_workers config) s = (Ok tt, s)).
  { intros s. unfold ThreadPoolExecutor. destruct (Z.leb_spec (max_workers config) 0); [lia|reflexivity]. }
  eexists. split; [|split].
  - intros k. unfold sync_rounds, bind, logger, modify, time_time, tqdm. cbn.
    rewrite Hexec. cbn. reflexivity.
  - intros Hne. destruct files as [|f files']; [contradiction|].
    unfold sync, bind, logger, modify, time_time, tqdm. cbn -[as_completed submit_all for_each print_summary pretty].
    rewrite Hexec. cbn -[as_completed submit_all for_each print_summary pretty]. reflexivity.
  - split; cbn; try reflexivity; try lia; try constructor; try lia.
Qed.

(** [as_completed] yields every future once. *)
Lemma completion_order_perm {A} (pick : nat -> nat) fuel : forall step (pending : list A),
  length pending = fuel -> completion_order pick fuel step pending ≡ₚ pending.
Proof.
  induction fuel as [|fuel IH]; intros step pending Hlen.
  - destruct pending; [reflexivity|discriminate].
  - cbn [completion_order].
    assert (Hk : (pick step mod length pending < length pending)%nat)
      by (apply Nat.mod_upper_bound; lia).
    destruct (lookup_lt_is_Some_2 _ _ Hk) as [f Hf]. rewrite Hf.
    etransitivity; [|symmetry; exact (delete_Permutation _ _ _ Hf)].
    constructor. apply IH. rewrite length_delete by eauto. lia.
Qed.

Lemma as_completed_perm {A} (fs : list A) : as_completed env fs ≡ₚ fs.
Proof. apply completion_order_perm. reflexivity. Qed.

Lemma submit_from_ids (files : list (string * string)) : forall i,
  map fut_id (imap (fun j f => Build_Future (i + j) f.1 f.2) files) = seq i (length files).
Proof.
  induction files as [|f files IH]; intros i; [reflexivity|].
  cbn. rewrite Nat.add_0_r. f_equal.
  rewrite <- (IH (S i)). f_equal. apply imap_ext. intros j x _. cbn.
  f_equal. lia.
Qed.

Lemma submit_all_ids files : map fut_id (submit_all files) = seq 0 (length files).
Proof. apply (submit_from_ids files 0). Qed.

Lemma submit_all_NoDup files : NoDup (submit_all files).
Proof.
  apply (NoDup_fmap_1 fut_id). 
  change (fmap fut_id) with (map fut_id). rewrite submit_all_ids. apply NoDup_seq.
Qed.

Lemma is_positive_nonzero q : is_positive q = true -> Qeq_bool q 0 = false.
Proof.
  unfold is_positive. intros H. apply negb_true_iff in H.
  destruct (Qeq_bool q 0) eqn:Heq; [|reflexivity].
  apply Qeq_bool_iff in Heq.
  assert (Qle_bool q 0 = true) by (apply Qle_bool_iff; rewrite Heq; apply Qle_refl).
  congruence.
Qed.

(** [print_summary] after the clock was started: it only logs and reads
    the clock, and it raises only if formatting the byte total does. *)
Lemma print_summary_frame st t0 :
  start_time (stats st) = Some t0 ->
  exists r st',
    print_summary env st = (r, st') /\
    stats st' = stats st /\ history st' = history st /\ display st' = display st /\
    (is_ok (utils.format_bytes (bytes_transferred (stats st))) = true -> r = Ok tt).
Proof.
  intros Ht0. unfold print_summary, bind, elapsed_since_start, time_time, get. cbn -[utils.format_bytes].
  rewrite Ht0. unfold ret at 1. rewrite rate_of_eq.
  unfold logger_summary, modify, lift. cbn -[utils.format_bytes].
  destruct (utils.format_bytes (bytes_transferred (stats st))) as [data|e]; cbn -[utils.format_bytes].
  2:{ eexists _, _. split; [reflexivity|]. cbn -[utils.format_bytes]. repeat split. discriminate. }
  destruct (0 <? success (stats st) + failed (stats st)); cbn -[utils.format_bytes].
  2:{ eexists _, _. split; [reflexivity|]. cbn -[utils.format_bytes]. repeat split. }
  destruct (is_positive (rate_value _ _)) eqn:Hpos; cbn -[utils.format_bytes].
  2:{ eexists _, _. split; [reflexivity|]. cbn -[utils.format_bytes]. repeat split. }
  unfold truediv. rewrite (is_positive_nonzero _ Hpos). cbn -[utils.format_bytes].
  eexists _, _. split; [reflexivity|]. cbn -[utils.format_bytes]. repeat split.
Qed.

Lemma as_completed_length {A} (fs : list A) : length (as_completed env fs) = length fs.
Proof. apply Permutation_length, as_completed_perm. Qed.

(** The state after [k] rounds. *)
Lemma sync_rounds_inv files st k :
  0 < max_workers config ->
  exists pbar stk,
    sync_rounds env config k files (init st).2 = (Ok pbar, stk) /\
    map fst (history stk) = take k (as_completed env (submit_all files)) /\
    loop_inv env (Z.of_nat (length files)) (now env (clock_reads st))
             (k `min` length files) stk pbar.
Proof.
  intros Hw. destruct (sync_prologue files st Hw) as (stp & Hrounds & _ & Hinv).
  destruct (for_each_inv _ _ (take k (as_completed env (submit_all files))) _ _ _ Hinv)
    as (pbar & stk & Hrun & Hh & Hinv').
  exists pbar, stk. rewrite Hrounds. split; [exact Hrun|].
  assert (Hnil : history stp = [])
    by (apply nil_length_inv; exact (inv_history _ _ _ _ _ _ Hinv)).
  rewrite Hnil in Hh.
  split; [exact Hh|].
  rewrite length_take, as_completed_length in Hinv'.
    unfold submit_all in Hinv'. rewrite length_imap in Hinv'. exact Hinv'.
Qed.

(** The state when [sync] is done with a non-empty list. *)
Lemma sync_final files st :
  0 < max_workers config ->
  files <> [] ->
  exists pbar stl r st',
    sync_rounds env config (length files) files (init st).2 = (Ok pbar, stl) /\
    map fst (history stl) = as_completed env (submit_all files) /\
    loop_inv env (Z.of_nat (length files)) (now env (clock_reads st))
             (length files) stl pbar /\
    sync env config files (init st).2 = (r, st') /\
    stats st' = stats stl /\ history st' = history stl /\ display st' = display stl /\
    (is_ok (utils.format_bytes (bytes_transferred (stats stl))) = true -> r = Ok tt).
Proof.
  intros Hw Hne.
  destruct (sync_rounds_inv files st (length files) Hw) as (pbar & stl & Hrun & Hh & Hinv).
  rewrite Nat.min_id in Hinv.
  rewrite firstn_all2 in Hh
    by (rewrite as_completed_length; unfold submit_all; rewrite length_imap; lia).
  destruct (sync_prologue files st Hw) as (stp & Hrounds & Hsync & _).
  rewrite Hrounds in Hrun.
  rewrite firstn_all2 in Hrun
    by (rewrite as_completed_length; unfold submit_all; rewrite length_imap; lia).
  destruct (print_summary_frame stl _ (inv_start _ _ _ _ _ _ Hinv))
    as (r & st' & Hsum & Hs & Hhist & Hd & Hok).
  exists pbar, stl, r, st'.
  split; [rewrite Hrounds, firstn_all2; [exact Hrun|]|].
  { rewrite as_completed_length. unfold submit_all. rewrite length_imap. lia. }
  split; [exact Hh|]. split; [exact Hinv|].
  split; [rewrite (Hsync Hne), Hrun; exact Hsum|].
  repeat split; assumption.
Qed.

(** Without a positive worker count the pool cannot be built. *)
Lemma sync_no_workers files st :
  max_workers config <= 0 ->
  (forall k, success (stats (sync_rounds env config k files (init st).2).2) = 0 /\
             failed (stats (sync_rounds env config k files (init st).2).2) = 0) /\
  (files <> [] -> exists e, (sync env config files (init st).2).1 = Err e).
Proof.
  intros Hw.
  assert (Hexec : forall s, ThreadPoolExecutor (max_workers config) s =
            (Err (Exn ValueError "max_workers must be greater than 0"), s)).
  { intros s. unfold ThreadPoolExecutor. destruct (Z.leb_spec (max_workers config) 0); [reflexivity|lia]. }
  split.
  - intros k. unfold sync_rounds, bind, logger, modify, time_time. cbn.
    rewrite Hexec. cbn. split; reflexivity.
  - intros Hne. destruct files as [|f files']; [contradiction|].
    unfold sync, bind, logger, modify, time_time. cbn -[as_completed submit_all for_each print_summary pretty].
    rewrite Hexec. cbn. eauto.
Qed.

Lemma triple_eq (a b c a' b' c' : Z) :
  a = a' -> b = b' -> c = c' -> (a, b, c) = (a', b', c').
Proof. congruence. Qed.

(** Folding [record] over outcomes adds their totals, whatever their
    order. *)
Lemma tally_cons (o : Outcome) (os : list Outcome) :
  tally (o :: os) =
  (if o.1.1 then 1 + (tally os).1.1 else (tally os).1.1,
   if o.1.1 then (tally os).1.2 else 1 + (tally os).1.2,
   (if o.1.1 then o.2 else 0) + (tally os).2).
Proof.
  unfold tally. rewrite !filter_cons. cbn [fst snd foldr].
  destruct o as [[[] msg] b]; cbn [fst snd].
  - rewrite decide_True by reflexivity. rewrite decide_False by discriminate.
    cbn [length]. apply triple_eq; lia.
  - rewrite decide_False by discriminate. rewrite decide_True by reflexivity.
    cbn [length]. apply triple_eq; lia.
Qed.

Lemma foldl_record_totals (os : list Outcome) : forall s,
  totals (foldl (fun s o => record o s) s os) =
  (success s + (tally os).1.1, failed s + (tally os).1.2,
   bytes_transferred s + (tally os).2).
Proof.
  induction os as [|o os IH]; intros s.
  - unfold totals. cbn. apply triple_eq; lia.
  - cbn [foldl]. rewrite IH, tally_cons.
    destruct o as [[[] msg] b]; cbn; apply triple_eq; lia.
Qed.

Lemma tally_permutation (os os' : list Outcome) : os ≡ₚ os' -> tally os = tally os'.
Proof.
  induction 1 as [|o l l' _ IH|o1 o2 l|l1 l2 l3 _ IH1 _ IH2].
  - reflexivity.
  - rewrite !tally_cons, IH. reflexivity.
  - rewrite !tally_cons. cbn [fst snd].
    destruct (o1.1.1), (o2.1.1); apply triple_eq; lia.
  - congruence.
Qed.

(** The byte total of outcomes with sizes in [0, B]. *)
Lemma tally_bytes_bound B (h : list (Future * Outcome)) :
  0 <= B ->
  (forall p sz, getsize env p = Ok sz -> 0 <= sz <= B) ->
  Forall (fun fo => outcome_of env fo.1 fo.2) h ->
  0 <= (tally (map snd h)).2 <= Z.of_nat (length h) * B.
Proof.
  intros HB Hsz. induction 1 as [|[f o] h Ho _ IH]; [unfold tally; cbn; lia|].
  rewrite map_cons, tally_cons, length_cons. cbn [fst snd] in *.
  destruct Ho as [(sz & Hg & ->)|(e & ->)]; cbn [fst snd failure_of].
  - apply Hsz in Hg. lia.
  - lia.
Qed.

Lemma loop_inv_totals N t0 k st pbar :
  loop_inv env N t0 k st pbar -> totals (stats st) = tally (map snd (history st)).
Proof.
  intros Hinv. rewrite (inv_stats _ _ _ _ _ _ Hinv), foldl_record_totals.
  destruct (tally (map snd (history st))) as [[a b] c]. reflexivity.
Qed.

(** C1. Take any list of units and run [sync] on a fresh uploader.
    (1) After any number of rounds of the aggregation loop the two
    counters sum to at most the number of units, and with a usable pool
    they sum to the number of rounds done.  (2) When [sync] returns, the
    counters sum to the number of units, the futures whose outcome was
    recorded are a rearrangement of the submitted ones with none twice,
    each recorded outcome is an outcome of the unit it is recorded for,
    and the three totals are the totals of the recorded outcomes.
    (3) [sync] does return when the pool has at least one worker and the
    file sizes and their number stay below 2^63. *)
Theorem sync_completeness (files : list (string * string)) (st0 : State) :
  (forall k,
     success (stats (sync_rounds env config k files (init st0).2).2) +
     failed (stats (sync_rounds env config k files (init st0).2).2)
     <= Z.of_nat (length files)) /\
  (0 < max_workers config ->
   forall k, (k <= length files)%nat ->
     success (stats (sync_rounds env config k files (init st0).2).2) +
     failed (stats (sync_rounds env config k files (init st0).2).2) = Z.of_nat k) /\
  ((sync env config files (init st0).2).1 = Ok tt ->
   success (stats (sync env config files (init st0).2).2) +
   failed (stats (sync env config files (init st0).2).2) = Z.of_nat (length files) /\
   map fst (history (sync env config files (init st0).2).2) ≡ₚ submit_all files /\
   NoDup (map fst (history (sync env config files (init st0).2).2)) /\
   Forall (fun fo => outcome_of env fo.1 fo.2)
          (history (sync env config files (init st0).2).2) /\
   totals (stats (sync env config files (init st0).2).2) =
     tally (map snd (history (sync env config files (init st0).2).2))) /\
  (0 < max_workers config ->
   (forall p sz, getsize env p = Ok sz -> 0 <= sz < 2 ^ 63) ->
   Z.of_nat (length files) < 2 ^ 63 ->
   (sync env config files (init st0).2).1 = Ok tt).
Proof.
  split; [|split; [|split]].
  - intros k. destruct (Z.lt_ge_cases 0 (max_workers config)) as [Hw|Hw].
    + destruct (sync_rounds_inv files st0 k Hw) as (pbar & stk & -> & _ & Hinv).
      cbn [snd]. rewrite (inv_count _ _ _ _ _ _ Hinv). lia.
    + destruct (sync_no_workers files st0 Hw) as [H _].
      destruct (H k) as [-> ->]. lia.
  - intros Hw k Hk.
    destruct (sync_rounds_inv files st0 k Hw) as (pbar & stk & -> & _ & Hinv).
    cbn [snd]. rewrite (inv_count _ _ _ _ _ _ Hinv). lia.
  - intros Hok. destruct files as [|f files'].
    { cbn. repeat split; try constructor. }
    set (files := f :: files') in *.
    assert (Hne : files <> []) by discriminate.
    destruct (Z.lt_ge_cases 0 (max_workers config)) as [Hw|Hw].
    2:{ destruct (sync_no_workers files st0 Hw) as [_ H].
        destruct (H Hne) as [e He]. congruence. }
    destruct (sync_final files st0 Hw Hne)
      as (pbar & stl & r & st' & _ & Hh & Hinv & Hsync & Hs & Hhist & _ & _).
    rewrite Hsync. cbn [snd]. rewrite Hs, Hhist.
    split; [exact (inv_count _ _ _ _ _ _ Hinv)|].
    split; [rewrite Hh; apply as_completed_perm|].
    split; [rewrite Hh, as_completed_perm; apply submit_all_NoDup|].
    split; [exact (inv_shape _ _ _ _ _ _ Hinv)|].
    eapply loop_inv_totals; exact Hinv.
  - intros Hw Hsz Hlen. destruct files as [|f files']; [reflexivity|].
    set (files := f :: files') in *.
    assert (Hne : files <> []) by discriminate.
    destruct (sync_final files st0 Hw Hne)
      as (pbar & stl & r & st' & _ & Hh & Hinv & Hsync & _ & _ & _ & Hret).
    rewrite Hsync. cbn [fst]. apply Hret.
    pose proof (loop_inv_totals _ _ _ _ _ Hinv) as Htot.
    assert (Hbytes : bytes_transferred (stats stl) = (tally (map snd (history stl))).2)
      by (rewrite <- Htot; reflexivity).
    pose proof (tally_bytes_bound (2 ^ 63) (history stl) ltac:(lia)
                  (fun p sz H => ltac:(specialize (Hsz p sz H); lia))
                  (inv_shape _ _ _ _ _ _ Hinv)) as Hb.
    rewrite (inv_history _ _ _ _ _ _ Hinv), <- Hbytes in Hb.
    assert (Habs : Z.abs (bytes_transferred (stats stl)) < 2 ^ 1000).
    { assert (Z.of_nat (length files) * 2 ^ 63 < 2 ^ 63 * 2 ^ 63) by lia.
      change (2 ^ 63 * 2 ^ 63) with (2 ^ 126) in *.
      assert (2 ^ 126 < 2 ^ 1000) by (apply Z.pow_lt_mono_r; lia). lia. }
    destruct (float_of_int_ok _ Habs) as [m Hm].
    destruct (format_bytes_ok _ _ Hm) as [str ->]. reflexivity.
Qed.

(** C6, as the code has it.  After each unit completion the bar is
    redrawn with the number of completed units out of the total.  The
    postfix (throughput and failed count) is refreshed with the current
    values only once at least one unit has succeeded; until then the bar
    shows no postfix.  The failed counts the bar shows never decrease,
    and [print_summary] draws nothing more. *)
Theorem progress_readout (files : list (string * string)) (st0 : State) (k : nat) :
  0 < max_workers config ->
  (k <= length files)%nat ->
  exists pbar stk t0,
    sync_rounds env config k files (init st0).2 = (Ok pbar, stk) /\
    start_time (stats stk) = Some t0 /\
    last (display stk) = Some pbar /\
    pbar_n pbar = Z.of_nat k /\
    pbar_total pbar = Z.of_nat (length files) /\
    pbar_postfix pbar =
      (if 0 <? success (stats stk)
       then Some (rate_value (success (stats stk))
                             (now env (Nat.pred (clock_reads stk)) - t0),
                  failed (stats stk))
       else None) /\
    StronglySorted Z.le (shown_failed (display stk)) /\
    (k = length files -> files <> [] ->
     display (sync env config files (init st0).2).2 = display stk).
Proof.
  intros Hw Hk.
  destruct (sync_rounds_inv files st0 k Hw) as (pbar & stk & Hrun & _ & Hinv).
  rewrite Nat.min_l in Hinv by exact Hk.
  exists pbar, stk, (now env (clock_reads st0)).
  split; [exact Hrun|].
  split; [exact (inv_start _ _ _ _ _ _ Hinv)|].
  split; [exact (inv_shown _ _ _ _ _ _ Hinv)|].
  split; [exact (proj1 (inv_pbar _ _ _ _ _ _ Hinv))|].
  split; [exact (proj2 (inv_pbar _ _ _ _ _ _ Hinv))|].
  split; [exact (inv_postfix _ _ _ _ _ _ Hinv)|].
  split; [exact (inv_sorted _ _ _ _ _ _ Hinv)|].
  intros -> Hne.
  destruct (sync_final files st0 Hw Hne)
    as (pbar' & stl & r & st' & Hrun' & _ & _ & Hsync & _ & _ & Hd & _).
  rewrite Hsync. cbn [snd]. rewrite Hd. congruence.
Qed.

(** C4, as the code has it.  Given no units, [sync] logs one warning and
    returns.  Nothing else changes: the clock is not read and no start
    time is stamped, no client is built, no put is issued, the counters
    and the history stay as they were, no bar is drawn, and no summary
    line is logged. *)
Theorem sync_empty (st : State) :
  sync env config [] st =
    (Ok tt, set_log (fun l => l ++ [Log WARNING "No files to sync"]) st) /\
  stats (sync env config [] st).2 = stats st /\
  clock_reads (sync env config [] st).2 = clock_reads st /\
  thread_local (sync env config [] st).2 = thread_local st /\
  boto3_calls (sync env config [] st).2 = boto3_calls st /\
  s3_calls (sync env config [] st).2 = s3_calls st /\
  display (sync env config [] st).2 = display st /\
  history (sync env config [] st).2 = history st /\
  (forall line, Summary line ∈ log (sync env config [] st).2 -> Summary line ∈ log st).
Proof.
  split; [reflexivity|]. cbn. repeat split.
  intros line Hin. apply elem_of_app in Hin as [Hin|Hin]; [exact Hin|].
  apply list_elem_of_singleton in Hin. discriminate.
Qed.

(** Had [print_summary] been reached with the clock not started, it
    would have raised. *)
Lemma print_summary_needs_clock st :
  start_time (stats st) = None ->
  exists e, (print_summary env st).1 = Err e /\ exn_cls e = TypeError.
Proof.
  intros H. unfold print_summary, bind, elapsed_since_start, time_time, get. cbn.
  rewrite H. cbn. eauto.
Qed.
End Aggregation.

Lemma sync_completeness_witness :
  (sync examples.env (examples.mock_config false) examples.files (init boot).2).1 = Ok tt /\
  totals (stats (sync examples.env (examples.mock_config false) examples.files (init boot).2).2)
  = (2, 2, 200).
Proof.
  split.
  - apply (proj2 (proj2 (proj2
      (sync_completeness examples.env (examples.mock_config false) examples.files boot)))).
    + reflexivity.
    + intros p sz. cbn. case_bool_decide; [discriminate|]. intros [= <-]. lia.
    + cbn. lia.
  - vm_compute. reflexivity.
Defined.

Lemma progress_readout_witness :
  exists pbar stk t0,
    sync_rounds examples.env (examples.mock_config false) 2 examples.files (init boot).2
    = (Ok pbar, stk) /\
    start_time (stats stk) = Some t0 /\
    last (display stk) = Some pbar /\
    pbar_n pbar = 2.
Proof.
  destruct (progress_readout examples.env (examples.mock_config false) examples.files boot 2)
    as (pbar & stk & t0 & Hrun & Ht0 & Hlast & Hn & _).
  - reflexivity.
  - cbn. lia.
  - exists pbar, stk, t0. repeat split; assumption.
Defined.

(** C6 as stated fails: when the only unit so far has failed, the bar
    shows no failure count (and no throughput) although one unit has
    failed. *)
Lemma progress_readout_silent_on_failure :
  ~ (forall env config files st0 k,
       0 < max_workers config ->
       (1 <= k <= length files)%nat ->
       exists pbar rate,
         last (display (sync_rounds env config k files (init st0).2).2) = Some pbar /\
         pbar_postfix pbar =
           Some (rate, failed (stats (sync_rounds env config k files (init st0).2).2))).
Proof.
  intros H.
  destruct (H examples.env (examples.mock_config true) [("missing", "km")] boot 1%nat)
    as (pbar & rate & Hlast & Hpost).
  - reflexivity.
  - cbn. lia.
  - vm_compute in Hlast. injection Hlast as <-. discriminate Hpost.
Qed.

(** C4 as stated fails: on an empty list [sync] returns before
    [print_summary], so no report with a zero total is produced. *)
Lemma sync_empty_no_report :
  ~ (Summary (TotalFiles 0) ∈
       log (sync examples.env (examples.mock_config true) [] (init boot).2).2).
Proof.
  vm_compute. intros H. apply list_elem_of_singleton in H. discriminate H.
Qed.

(** * Further properties of the code *)

Section MoreFormatBytes.
Import utils.

Lemma float_of_int_err n e :
  float_of_int n = Err e ->
  e = Exn OverflowError "int too large to convert to float" /\ 2 ^ 53 <= Z.abs n.
Proof.
  unfold float_of_int.
  destruct (Z.ltb_spec (Z.abs n) (2 ^ 53)); [discriminate|].
  match goal with |- context [if 2 ^ 1024 <=? ?v then _ else _] =>
    destruct (2 ^ 1024 <=? v) end; [|discriminate].
  intros [= <-]. split; [reflexivity|assumption].
Qed.

Lemma format_bytes_err n e : format_bytes n = Err e -> float_of_int n = Err e.
Proof.
  intros H. destruct (float_of_int n) as [m|e'] eqn:Hf.
  - destruct (format_bytes_ok n m Hf) as [s Hs]. congruence.
  - revert H. unfold format_bytes. cbn [format_bytes_loop lt_1024 div_1024 format_2f].
    rewrite Hf. cbn [rbind]. destruct (n <? 1024); congruence.
Qed.

Lemma float_of_int_overflow n : 2 ^ 1024 <= Z.abs n -> exists e, float_of_int n = Err e.
Proof.
  intros Hn. unfold float_of_int.
  set (a := Z.abs n) in *.
  destruct (Z.ltb_spec a (2 ^ 53)) as [Hlt|_].
  { assert (2 ^ 53 < 2 ^ 1024) by (apply Z.pow_lt_mono_r; lia). lia. }
  assert (Hpos : 0 < a) by (pose proof (Z.pow_pos_nonneg 2 1024); lia).
  assert (Hlog : 1024 <= Z.log2 a) by (apply Z.log2_le_pow2; lia).
  set (e := Z.log2 a - 52).
  assert (He : 0 < 2 ^ e) by (apply Z.pow_pos_nonneg; lia).
  assert (Hq : 2 ^ 52 <= a / 2 ^ e).
  { apply Z.div_le_lower_bound; [exact He|].
    rewrite Z.mul_comm, <- Z.pow_add_r by lia.
    replace (52 + e) with (Z.log2 a) by lia.
    apply Z.log2_spec. exact Hpos. }
  match goal with |- context [if ?c then a / 2 ^ e + 1 else a / 2 ^ e] =>
    set (q' := if c then a / 2 ^ e + 1 else a / 2 ^ e) end.
  assert (Hq' : 2 ^ 52 <= q') by (subst q'; destruct (_ || _); lia).
  assert (Hv : 2 ^ 52 * 2 ^ e <= q' * 2 ^ e) by (apply Z.mul_le_mono_nonneg_r; lia).
  rewrite <- Z.pow_add_r in Hv by lia.
  assert (2 ^ 1024 <= 2 ^ (52 + e)) by (apply Z.pow_le_mono_r; lia).
  destruct (Z.leb_spec (2 ^ 1024) (q' * 2 ^ e)); [eauto|lia].
Qed.

(** X1. [format_bytes] can fail in one way only: with [OverflowError],
    when the count is too large to become a float.  It never fails for a
    count of magnitude below [2^1000], and always fails from [2^1024]
    on. *)
Theorem format_bytes_failure n :
  (forall e, format_bytes n = Err e ->
             exn_cls e = OverflowError /\ 2 ^ 1000 <= Z.abs n) /\
  (Z.abs n < 2 ^ 1000 -> exists s, format_bytes n = Ok s) /\
  (2 ^ 1024 <= Z.abs n -> exists e, format_bytes n = Err e).
Proof.
  split; [|split].
  - intros e He. apply format_bytes_err in He.
    destruct (float_of_int_err _ _ He) as [-> _]. split; [reflexivity|].
    destruct (Z.lt_ge_cases (Z.abs n) (2 ^ 1000)) as [Hlt|]; [|assumption].
    destruct (float_of_int_ok _ Hlt) as [m Hm]. congruence.
  - intros Hlt. destruct (float_of_int_ok _ Hlt) as [m Hm].
    exact (format_bytes_ok _ _ Hm).
  - intros Hn. destruct (float_of_int_overflow _ Hn) as [e He].
    exists e. unfold format_bytes. cbn [format_bytes_loop lt_1024 div_1024 format_2f].
    rewrite He. cbn [rbind]. destruct (n <? 1024); reflexivity.
Qed.

Lemma round_half_even_den_1 num : round_half_even num 1 = num.
Proof.
  unfold round_half_even. rewrite Z.mod_1_r, Z.div_1_r. cbn. reflexivity.
Qed.

Lemma fixed2_integer n : fixed2 n 1 = pretty n +:+ ".00".
Proof.
  unfold fixed2. rewrite round_half_even_den_1.
  assert (Hq : Z.abs (100 * n) / 100 = Z.abs n).
  { rewrite Z.abs_mul. change (Z.abs 100) with 100. rewrite Z.mul_comm. apply Z.div_mul. lia. }
  assert (Hr : Z.abs (100 * n) mod 100 = 0).
  { rewrite Z.abs_mul. change (Z.abs 100) with 100. rewrite Z.mul_comm. apply Z.mod_mul. lia. }
  rewrite Hq, Hr. change (two_digits 0) with "00".
  destruct n as [|p|p]; reflexivity.
Qed.

(** X2. A count below 1024 is never scaled: it is printed as the integer
    itself with ".00" and the unit B.  This includes every negative
    count (down to [-2^53]), whatever its magnitude. *)
Theorem format_bytes_below_1024 n :
  - 2 ^ 53 < n < 1024 -> format_bytes n = Ok (pretty n +:+ ".00 B").
Proof.
  intros [Hlo Hhi]. unfold format_bytes. cbn [format_bytes_loop lt_1024].
  destruct (Z.ltb_spec n 1024); [|lia].
  cbn [format_2f]. rewrite float_of_int_exact by lia. cbn [rbind].
  rewrite fixed2_integer, string_app_assoc. reflexivity.
Qed.


Lemma round_half_even_scale c num den :
  0 < c -> 0 < den -> round_half_even (c * num) (c * den) = round_half_even num den.
Proof.
  intros Hc Hd. unfold round_half_even.
  rewrite Z.div_mul_cancel_l by lia.
  rewrite Zmult_mod_distr_l.
  replace (2 * (c * (num mod den))) with (c * (2 * (num mod den))) by lia.
  rewrite <- Zmult_compare_compat_l by lia. reflexivity.
Qed.

Lemma fixed2_scale c num den :
  0 < c -> 0 < den -> 0 <= num -> fixed2 (c * num) (c * den) = fixed2 num den.
Proof.
  intros Hc Hd Hn. unfold fixed2.
  replace (100 * (c * num)) with (c * (100 * num)) by lia.
  rewrite round_half_even_scale by lia.
  destruct (Z.ltb_spec (c * num) 0); [nia|].
  destruct (Z.ltb_spec num 0); [lia|]. reflexivity.
Qed.

Lemma unit_index_times_1024 n :
  1 <= n < 1024 ^ 5 -> unit_index n <= 4 /\ unit_index (1024 * n) = unit_index n + 1.
Proof.
  intros [Hlo Hhi]. unfold unit_index.
  change (1024 ^ 5) with (2 ^ 50) in Hhi.
  assert (Hl : Z.log2 n < 50) by (apply Z.log2_lt_pow2; lia).
  pose proof (Z.log2_nonneg n) as Hl0.
  replace (1024 * n) with (n * 2 ^ 10) by lia.
  rewrite Z.log2_mul_pow2 by lia.
  assert (Hd : (10 + Z.log2 n) / 10 = Z.log2 n / 10 + 1).
  { replace (10 + Z.log2 n) with (Z.log2 n + 1 * 10) by lia. apply Z.div_add. lia. }
  rewrite Hd.
  assert (Z.log2 n / 10 < 5) by (apply Z.div_lt_upper_bound; lia).
  split; lia.
Qed.

(** X3. Multiplying a count by 1024 keeps the digits and moves to the
    next unit: for [1 <= n < 2^43], [format_bytes(1024 * n)] shows the
    same number as [format_bytes(n)], followed by the next larger unit
    name. *)
Theorem format_bytes_times_1024 n :
  1 <= n < 2 ^ 43 ->
  exists digits,
    format_bytes n =
      Ok (digits +:+ " " +:+ nth (Z.to_nat (unit_index n)) unit_names "") /\
    format_bytes (1024 * n) =
      Ok (digits +:+ " " +:+ nth (S (Z.to_nat (unit_index n))) unit_names "").
Proof.
  intros [Hlo Hhi].
  assert (H50 : n < 1024 ^ 5) by (change (1024 ^ 5) with (2 ^ 50); lia).
  destruct (unit_index_times_1024 n ltac:(lia)) as [Hk Hk'].
  assert (Hk0 : 0 <= unit_index n) by (unfold unit_index; pose proof (Z.log2_nonneg n);
    assert (0 <= Z.log2 n / 10) by (apply Z.div_pos; lia); lia).
  exists (fixed2 n (1024 ^ unit_index n)). split.
  - rewrite format_bytes_refines by lia. reflexivity.
  - rewrite format_bytes_refines by lia. unfold format_bytes_spec. cbn zeta.
    rewrite Hk'. rewrite Z.pow_add_r by lia. rewrite Z.pow_1_r.
    rewrite (Z.mul_comm (1024 ^ unit_index n) 1024).
    rewrite fixed2_scale by (try apply Z.pow_pos_nonneg; lia).
    rewrite Z2Nat.inj_add by lia. rewrite Nat.add_1_r. reflexivity.
Qed.

End MoreFormatBytes.


(** Split [H : upload_file .. = (r, st1)] into the ways the call can go
    (size unresolved; client cached, not buildable, or built; then dry
    run, put refused, or put accepted), substituting [r] and [st1]. *)
Ltac upload_cases H :=
  let Hsize := fresh "Hsize" in
  let Hcall := fresh "Hcall" in
  let Hdry := fresh "Hdry" in
  let Hput := fresh "Hput" in
  rewrite upload_file_eq in H;
  destruct (getsize _ _) as [?|?] eqn:Hsize;
  [ destruct (get_s3_client _ _ _ _) as [? ?] eqn:Hcall; client_call Hcall;
    [ destruct (dry_run _) eqn:Hdry;
      [|cbn zeta in H; destruct (put_error _ _ _) eqn:Hput]
    |
    | destruct (dry_run _) eqn:Hdry;
      [|cbn zeta in H; destruct (put_error _ _ _) eqn:Hput] ]
  | ];
  injection H as <- <-.

Section Effects.
Variable env : Env.
Variable config : Config.

(** A transfer leaves the other threads' client slots alone. *)
Lemma upload_file_slots tid file_path s3_key st r st1 :
  upload_file env config tid file_path s3_key st = (r, st1) ->
  forall t, t <> tid -> thread_local st1 !! t = thread_local st !! t.
Proof.
  intros H t Ht. upload_cases H; cbn; try reflexivity;
    apply lookup_insert_ne; congruence.
Qed.

(** With a client in its slot, a transfer builds none. *)
Lemma upload_file_cached tid file_path s3_key st r st1 c :
  upload_file env config tid file_path s3_key st = (r, st1) ->
  thread_local st !! tid = Some c ->
  thread_local st1 = thread_local st /\ boto3_calls st1 = boto3_calls st.
Proof.
  intros H Hc. upload_cases H; cbn; try (split; reflexivity); congruence.
Qed.

Lemma upload_file_puts tid file_path s3_key st r st1 :
  upload_file env config tid file_path s3_key st = (r, st1) ->
  s3_calls st1 = s3_calls st \/
  (dry_run config = false /\
   exists c, thread_local st1 !! tid = Some c /\
             s3_calls st1 = s3_calls st ++ [put_of config c file_path s3_key]).
Proof.
  intros H. upload_cases H; cbn; try (left; reflexivity);
    right; (split; [reflexivity|]); eexists;
    (split; [first [eassumption | apply lookup_insert_eq] | reflexivity]).
Qed.

Lemma upload_file_log tid file_path s3_key st r st1 :
  upload_file env config tid file_path s3_key st = (r, st1) ->
  exists o, r = Ok o /\ log st1 = log st ++ worker_log config file_path s3_key o.
Proof.
  intros H. unfold worker_log.
  upload_cases H; eexists; (split; [reflexivity|]); cbn; rewrite ?Hdry, ?app_nil_r;
    reflexivity.
Qed.


Lemma upload_file_dry tid file_path s3_key st r st1 :
  upload_file env config tid file_path s3_key st = (r, st1) ->
  dry_run config = true ->
  (forall k region, client_error env k region = None) ->
  r = Ok (dry_outcome env file_path).
Proof.
  intros H Hd Hno. unfold dry_outcome.
  upload_cases H; rewrite ?Hsize; try reflexivity; try congruence;
    rewrite Hno in Herr; discriminate.
Qed.
End Effects.

Section Rounds.
Variable env : Env.
Variable config : Config.

(** One round of the loop seen from outside: the transfer runs, then the
    loop logs a failure once more and touches neither clients nor
    puts. *)
Lemma loop_body_world f pbar st t0 :
  start_time (stats st) = Some t0 ->
  exists o st1 pbar' st',
    future_result env config f st = (Ok o, st1) /\
    loop_body env config f pbar st = (Ok pbar', st') /\
    thread_local st' = thread_local st1 /\
    boto3_calls st' = boto3_calls st1 /\
    s3_calls st' = s3_calls st1 /\
    log st' = log st1 ++ loop_log o /\
    stats st' = record o (stats st) /\
    history st' = history st ++ [(f, o)].
Proof.
  intros Ht0.
  destruct (upload_file_returns env config (thread_of env config f) (fut_path f) (fut_key f) st)
    as (o & st1 & Hrun & (Hs & Hh & Hd & Hk) & _).
  exists o, st1. unfold loop_body, bind, future_result. rewrite Hrun.
  unfold loop_log. destruct o as [[ok msg] b]. cbn [fst snd].
  destruct ok.
  - unfold record_outcome, modify, pbar_update, bind, get. cbn. rewrite Hs.
    destruct (0 <? success (stats st) + 1).
    + unfold elapsed_since_start, time_time, bind, get. cbn. rewrite Hs, Ht0.
      unfold ret at 1. rewrite rate_of_eq. unfold pbar_set_postfix, bind, modify, ret. cbn.
      eexists _, _. split; [reflexivity|]. split; [reflexivity|]. cbn.
      rewrite ?Hs, ?Hh, ?app_nil_r. repeat split; rewrite ?Ht0; reflexivity.
    + unfold ret. eexists _, _. split; [reflexivity|]. split; [reflexivity|]. cbn.
      rewrite ?Hs, ?Hh, ?app_nil_r. repeat split; rewrite ?Ht0; reflexivity.
  - unfold record_outcome, modify, logger, pbar_update, bind, get. cbn. rewrite Hs.
    destruct (0 <? success (stats st)).
    + unfold elapsed_since_start, time_time, bind, get. cbn. rewrite Hs, Ht0.
      unfold ret at 1. rewrite rate_of_eq. unfold pbar_set_postfix, bind, modify, ret. cbn.
      eexists _, _. split; [reflexivity|]. split; [reflexivity|]. cbn.
      rewrite ?Hs, ?Hh. repeat split; rewrite ?Ht0; reflexivity.
    + unfold ret. eexists _, _. split; [reflexivity|]. split; [reflexivity|]. cbn.
      rewrite ?Hs, ?Hh. repeat split; rewrite ?Ht0; reflexivity.
Qed.

(** Running the loop: a property of the futures done so far and the state
    that every round carries forward holds when the loop is over, and the
    loop does reach its end. *)
Lemma for_each_invariant (I : list Future -> State -> Prop) :
  (forall done f pbar st pbar' st' t0,
     start_time (stats st) = Some t0 -> I done st ->
     loop_body env config f pbar st = (Ok pbar', st') -> I (done ++ [f]) st') ->
  forall fs done pbar st t0,
    start_time (stats st) = Some t0 -> I done st ->
    exists pbar' st',
      for_each env config fs pbar st = (Ok pbar', st') /\
      I (done ++ fs) st' /\ start_time (stats st') = Some t0.
Proof.
  intros Hstep. induction fs as [|f fs IH]; intros done pbar st t0 Ht0 HI.
  - exists pbar, st. rewrite app_nil_r. repeat split; assumption.
  - destruct (loop_body_world f pbar st t0 Ht0)
      as (o & st1 & pbar1 & st2 & _ & Hbody & _ & _ & _ & _ & Hst & _).
    assert (Ht2 : start_time (stats st2) = Some t0).
    { rewrite Hst. destruct (record_step o (stats st)) as [-> _]. exact Ht0. }
    destruct (IH (done ++ [f]) pbar1 st2 t0 Ht2 (Hstep _ _ _ _ _ _ _ Ht0 HI Hbody))
      as (pbar' & st' & Hrest & HI' & Ht').
    exists pbar', st'. cbn [for_each]. unfold bind. rewrite Hbody.
    rewrite <- app_assoc in HI'. repeat split; assumption.
Qed.

(** [sync] on a non-empty list with a usable pool: prologue, loop,
    summary. *)
Lemma sync_unfold files st :
  files <> [] -> 0 < max_workers config ->
  sync env config files st =
    match for_each env config (as_completed env (submit_all files)) (pbar0 files)
                   (after_prologue env config files st) with
    | (Ok _, stl) => print_summary env stl
    | (Err e, stl) => (Err e, stl)
    end.
Proof.
  intros Hne Hw. destruct files as [|f files']; [contradiction|].
  unfold sync, bind, logger, modify, time_time, tqdm, ThreadPoolExecutor.
  destruct (Z.leb_spec (max_workers config) 0); [lia|]. reflexivity.
Qed.

(** The three ways [sync] can go. *)
Lemma sync_cases files st :
  (files = [] /\
   sync env config files st =
     (Ok tt, set_log (fun l => l ++ [Log WARNING "No files to sync"]) st)) \/
  (files <> [] /\ max_workers config <= 0 /\
   exists e st',
     sync env config files st = (Err e, st') /\ exn_cls e = ValueError /\
     thread_local st' = thread_local st /\ boto3_calls st' = boto3_calls st /\
     s3_calls st' = s3_calls st /\ history st' = history st /\
     success (stats st') = success (stats st) /\ failed (stats st') = failed (stats st) /\
     bytes_transferred (stats st') = bytes_transferred (stats st) /\
     exists info, log st' = log st ++ [Log INFO info]) \/
  (files <> [] /\ 0 < max_workers config /\
   exists pbar stl,
     for_each env config (as_completed env (submit_all files)) (pbar0 files)
              (after_prologue env config files st) = (Ok pbar, stl) /\
     start_time (stats stl) = Some (now env (clock_reads st)) /\
     sync env config files st = print_summary env stl).
Proof.
  destruct files as [|f files']; [left; split; reflexivity|right].
  set (files := f :: files').
  assert (Hne : files <> []) by discriminate.
  destruct (Z.lt_ge_cases 0 (max_workers config)) as [Hw|Hw]; [right|left].
  - split; [exact Hne|]. split; [exact Hw|].
    destruct (for_each_invariant (fun _ _ => True) ltac:(trivial)
                (as_completed env (submit_all files)) [] (pbar0 files)
                (after_prologue env config files st) (now env (clock_reads st))
                eq_refl I) as (pbar & stl & Hrun & _ & Ht).
    exists pbar, stl. split; [exact Hrun|]. split; [exact Ht|].
    rewrite (sync_unfold files st Hne Hw), Hrun. reflexivity.
  - split; [exact Hne|]. split; [lia|].
    unfold sync, files, bind, logger, modify, time_time, ThreadPoolExecutor.
    destruct (Z.leb_spec (max_workers config) 0); [|lia].
    cbn -[as_completed submit_all for_each print_summary pretty].
    eexists _, _. split; [reflexivity|]. cbn. repeat split. eauto.
Qed.

End Rounds.

Section SummaryLines.
Variable env : Env.

Lemma errors_logged_app l1 l2 :
  errors_logged (l1 ++ l2) = errors_logged l1 + errors_logged l2.
Proof. unfold errors_logged. rewrite List.filter_app, length_app. lia. Qed.

(** [print_summary] with the clock started: what it logs, and that it
    can only fail on the byte total. *)
Lemma print_summary_started st t0 :
  start_time (stats st) = Some t0 ->
  exists r st' lines,
    print_summary env st = (r, st') /\
    same_but_log_and_clock st st' /\
    clock_reads st' = S (clock_reads st) /\
    log st' = log st ++ lines /\
    errors_logged lines = 0 /\
    match utils.format_bytes (bytes_transferred (stats st)) with
    | Ok data =>
        r = Ok tt /\
        lines = summary_lines (stats st) (now env (clock_reads st) - t0) data
    | Err e => r = Err e
    end.
Proof.
  intros Ht0. unfold print_summary, bind, elapsed_since_start, time_time, get.
  cbn -[utils.format_bytes]. rewrite Ht0. unfold ret at 1. rewrite rate_of_eq.
  unfold logger_summary, modify, lift, summary_lines. cbn -[utils.format_bytes].
  destruct (utils.format_bytes (bytes_transferred (stats st))) as [data|e];
    cbn -[utils.format_bytes].
  2:{ eexists _, _, _. split; [reflexivity|]. cbn. split; [repeat split|].
      split; [reflexivity|]. rewrite <- !app_assoc. cbn [app].
      split; [reflexivity|]. split; reflexivity. }
  destruct (0 <? success (stats st) + failed (stats st)); cbn -[utils.format_bytes].
  2:{ eexists _, _, _. split; [reflexivity|]. cbn. split; [repeat split|].
      split; [reflexivity|]. rewrite <- !app_assoc. cbn [app].
      split; [reflexivity|]. split; [reflexivity|]. split; reflexivity. }
  destruct (is_positive (rate_value _ _)) eqn:Hpos; cbn -[utils.format_bytes].
  2:{ eexists _, _, _. split; [reflexivity|]. cbn. split; [repeat split|].
      split; [reflexivity|]. rewrite <- !app_assoc. cbn [app].
      split; [reflexivity|]. split; [reflexivity|]. split; reflexivity. }
  unfold truediv. rewrite (is_positive_nonzero _ Hpos). cbn -[utils.format_bytes].
  eexists _, _, _. split; [reflexivity|]. cbn. split; [repeat split|].
  split; [reflexivity|]. rewrite <- !app_assoc. cbn [app].
  split; [reflexivity|]. split; [reflexivity|]. split; reflexivity.
Qed.
End SummaryLines.

Section RunProperties.
Variable env : Env.
Variable config : Config.

(** How to prove something about the result and final state of [sync]:
    treat the empty list, the unusable pool, and the full run, for which
    a property [I] of the futures done and the state is carried through
    the rounds of the loop. *)
Lemma sync_run_ind (P : result unit -> State -> Prop)
    (I : list Future -> State -> Prop) files st :
  (files = [] ->
   forall st', log st' = log st ++ [Log WARNING "No files to sync"] ->
               same_but_log_and_clock st st' -> clock_reads st' = clock_reads st ->
               P (Ok tt) st') ->
  (files <> [] -> max_workers config <= 0 ->
   forall e st' info,
     exn_cls e = ValueError ->
     thread_local st' = thread_local st -> boto3_calls st' = boto3_calls st ->
     s3_calls st' = s3_calls st -> history st' = history st ->
     success (stats st') = success (stats st) -> failed (stats st') = failed (stats st) ->
     bytes_transferred (stats st') = bytes_transferred (stats st) ->
     log st' = log st ++ [Log INFO info] -> P (Err e) st') ->
  (files <> [] -> 0 < max_workers config -> I [] (after_prologue env config files st)) ->
  (files <> [] -> 0 < max_workers config ->
   forall done f s o s1 s' t0,
     start_time (stats s) = Some t0 -> I done s ->
     upload_file env config (thread_of env config f) (fut_path f) (fut_key f) s = (Ok o, s1) ->
     thread_local s' = thread_local s1 -> boto3_calls s' = boto3_calls s1 ->
     s3_calls s' = s3_calls s1 -> log s' = log s1 ++ loop_log o ->
     stats s' = record o (stats s) -> history s' = history s ++ [(f, o)] ->
     I (done ++ [f]) s') ->
  (files <> [] -> 0 < max_workers config ->
   forall stl r st' lines,
     I (as_completed env (submit_all files)) stl ->
     start_time (stats stl) = Some (now env (clock_reads st)) ->
     same_but_log_and_clock stl st' ->
     log st' = log stl ++ lines -> errors_logged lines = 0 ->
     match utils.format_bytes (bytes_transferred (stats stl)) with
     | Ok data =>
         r = Ok tt /\
         lines = summary_lines (stats stl) (now env (clock_reads stl) -
                                            now env (clock_reads st)) data
     | Err e => r = Err e
     end ->
     P r st') ->
  P (sync env config files st).1 (sync env config files st).2.
Proof.
  intros H1 H2 HI0 Hstep H3.
  destruct (sync_cases env config files st)
    as [[Hnil Hs]|[(Hne & Hw & e & st' & Hs & He & Htl & Hb & Hc & Hh & Hsu & Hf & Hby & info & Hl)
       |(Hne & Hw & pbar & stl & Hrun & Ht & Hs)]].
  - rewrite Hs. apply H1; try assumption; try reflexivity. repeat split.
  - rewrite Hs. eapply H2; eassumption.
  - rewrite Hs.
    destruct (print_summary_started env stl _ Ht)
      as (r & st' & lines & Hp & Hsame & _ & Hl & He & Hres).
    rewrite Hp. cbn [fst snd]. eapply (H3 Hne Hw stl); try eassumption.
    destruct (for_each_invariant env config I) with
      (fs := as_completed env (submit_all files)) (done := @nil Future)
      (pbar := pbar0 files) (st := after_prologue env config files st)
      (t0 := now env (clock_reads st))
      as (pbar' & stl' & Hrun' & HI & _); try reflexivity.
    + intros done f pb s pb' s' t0 Ht0 HId Hbody.
      destruct (loop_body_world env config f pb s t0 Ht0)
        as (o & s1 & pb1 & s2 & Hup & Hbody' & Ha & Hb & Hc & Hd & Hst & Hh).
      rewrite Hbody in Hbody'. injection Hbody' as <- <-.
      eapply (Hstep Hne Hw); eassumption.
    + apply HI0; assumption.
    + rewrite Hrun in Hrun'. injection Hrun' as <- <-. exact HI.
Qed.

(** X7. In dry-run mode a whole [sync], whatever the list, the pool size
    and the state it starts in, issues no put: the list of storage calls
    is the same after as before. *)
Theorem sync_dry_run_no_puts files st :
  dry_run config = true ->
  s3_calls (sync env config files st).2 = s3_calls st.
Proof.
  intros Hdry.
  apply (sync_run_ind (fun _ st' => s3_calls st' = s3_calls st)
                      (fun _ s => s3_calls s = s3_calls st)).
  - intros _ st' _ (_ & _ & _ & H & _) _. exact H.
  - intros; assumption.
  - reflexivity.
  - intros _ _ done f s o s1 s' t0 _ HI Hup _ _ Hc _ _ _. rewrite Hc.
    destruct (upload_file_puts _ _ _ _ _ _ _ _ Hup) as [->|[Hd _]]; [exact HI|congruence].
  - intros _ _ stl r st' lines HI _ (_ & _ & _ & H & _) _ _ _. congruence.
Qed.

Lemma submit_from_units (files : list (string * string)) : forall i,
  map unit_of_future (imap (fun j f => Build_Future (i + j) f.1 f.2) files) = files.
Proof.
  induction files as [|[p k] files IH]; intros i; [reflexivity|].
  cbn. f_equal. rewrite <- (IH (S i)) at 2. f_equal. apply imap_ext.
  intros j x _. cbn. f_equal. lia.
Qed.

Lemma submit_all_units files : map unit_of_future (submit_all files) = files.
Proof. apply (submit_from_units files 0). Qed.

(** X8. The puts a [sync] issues are puts of submitted units: taken as
    (path, key) pairs they form a sub-multiset of the list given to
    [sync], so no unit is put twice and nothing else is put; each uses
    the configured bucket, storage class and transfer settings. *)
Theorem sync_puts_are_units files st :
  exists new,
    s3_calls (sync env config files st).2 = s3_calls st ++ new /\
    map unit_of_put new ⊆+ files /\
    Forall (put_as_configured config) new.
Proof.
  apply (sync_run_ind
    (fun _ st' => exists new, s3_calls st' = s3_calls st ++ new /\
                   map unit_of_put new ⊆+ files /\ Forall (put_as_configured config) new)
    (fun done s => exists new, s3_calls s = s3_calls st ++ new /\
                   sublist (map unit_of_put new) (map unit_of_future done) /\
                   Forall (put_as_configured config) new)).
  - intros _ st' _ (_ & _ & _ & H & _) _. exists []. rewrite app_nil_r.
    split; [exact H|]. split; [apply submseteq_nil_l|constructor].
  - intros _ _ e st' info _ _ _ H _ _ _ _ _. exists []. rewrite app_nil_r.
    split; [exact H|]. split; [apply submseteq_nil_l|constructor].
  - intros _ _. exists []. rewrite app_nil_r. split; [reflexivity|]. split; constructor.
  - intros _ _ done f s o s1 s' t0 _ (new & Hnew & Hsub & Hall) Hup _ _ Hc _ _ _.
    rewrite Hc, map_app.
    destruct (upload_file_puts _ _ _ _ _ _ _ _ Hup) as [->|(_ & c & _ & ->)].
    + exists new. split; [exact Hnew|]. split; [|exact Hall].
      apply sublist_inserts_r. exact Hsub.
    + exists (new ++ [put_of config c (fut_path f) (fut_key f)]).
      split; [rewrite Hnew, app_assoc; reflexivity|]. split.
      * rewrite map_app. apply sublist_app; [exact Hsub|]. cbn. reflexivity.
      * apply Forall_app. split; [exact Hall|]. constructor; [|constructor].
        repeat split.
  - intros _ _ stl r st' lines (new & Hnew & Hsub & Hall) _ (_ & _ & _ & H & _) _ _ _.
    exists new. split; [congruence|]. split; [|exact Hall].
    apply sublist_submseteq in Hsub.
    rewrite <- (submit_all_units files).
    etransitivity; [exact Hsub|].
    apply Permutation_submseteq.
    change (map unit_of_future) with (fmap (M:=list) unit_of_future).
    apply fmap_Permutation, as_completed_perm.
Qed.

(** X10. A [sync] logs exactly two ERROR records per failed unit (one by
    [upload_file], one by the aggregation loop) and none otherwise: the
    number of ERROR records grows by twice the growth of the failed
    count. *)
Theorem sync_logs_failures_twice files st :
  errors_logged (log (sync env config files st).2) =
  errors_logged (log st) +
  2 * (failed (stats (sync env config files st).2) - failed (stats st)).
Proof.
  apply (sync_run_ind
    (fun _ st' => errors_logged (log st') =
                  errors_logged (log st) + 2 * (failed (stats st') - failed (stats st)))
    (fun _ s => errors_logged (log s) =
                errors_logged (log st) + 2 * (failed (stats s) - failed (stats st)))).
  - intros _ st' Hl (_ & -> & _) _. rewrite Hl, errors_logged_app.
    change (errors_logged [Log WARNING "No files to sync"]) with 0. lia.
  - intros _ _ e st' info _ _ _ _ _ _ Hf _ Hl. rewrite Hl, errors_logged_app, Hf.
    change (errors_logged [Log INFO info]) with 0. lia.
  - intros _ _. unfold after_prologue. cbn. rewrite errors_logged_app.
    match goal with |- context [errors_logged [Log INFO ?m]] =>
      change (errors_logged [Log INFO m]) with 0 end. lia.
  - intros _ _ done f s o s1 s' t0 _ HI Hup _ _ _ Hl Hst _.
    destruct (upload_file_log _ _ _ _ _ _ _ _ Hup) as (o' & [= <-] & Hl1).
    rewrite Hl, Hl1, !errors_logged_app, HI, Hst.
    unfold worker_log, loop_log.
    destruct (record_step o (stats s)) as (_ & Hok & Hko).
    destruct (o.1.1) eqn:Hflag.
    + destruct (Hok eq_refl) as (_ & -> & _).
      destruct (dry_run config); unfold errors_logged; cbn; lia.
    + destruct (Hko eq_refl) as (_ & -> & _). unfold errors_logged. cbn. lia.
  - intros _ _ stl r st' lines HI _ (_ & -> & _) Hl He _.
    rewrite Hl, errors_logged_app, He, HI. lia.
Qed.

(** [sync] adds the number of units to the two counters it finds. *)
Lemma sync_counts files st :
  (sync env config files st).1 = Ok tt ->
  success (stats (sync env config files st).2) +
  failed (stats (sync env config files st).2) =
  success (stats st) + failed (stats st) + Z.of_nat (length files).
Proof.
  apply (sync_run_ind
    (fun r st' => r = Ok tt ->
       success (stats st') + failed (stats st') =
       success (stats st) + failed (stats st) + Z.of_nat (length files))
    (fun done s => success (stats s) + failed (stats s) =
                   success (stats st) + failed (stats st) + Z.of_nat (length done))).
  - intros -> st' _ (_ & -> & _) _ _. cbn. lia.
  - intros; discriminate.
  - intros _ _. cbn. lia.
  - intros _ _ done f s o s1 s' t0 _ HI _ _ _ _ _ Hst _.
    rewrite Hst, length_app. cbn [length].
    destruct (record_step o (stats s)) as (_ & Hok & Hko).
    destruct (o.1.1).
    + destruct (Hok eq_refl) as (-> & -> & _). lia.
    + destruct (Hko eq_refl) as (-> & -> & _). lia.
  - intros _ _ stl r st' lines HI _ (_ & -> & _) _ _ _ _.
    rewrite HI, as_completed_length. unfold submit_all. rewrite length_imap. reflexivity.
Qed.




(** X11. In a dry run where [boto3.client] never raises, the outcome
    recorded for a unit depends on its own source file alone: a success
    with the file's size if the size resolves, a failure with that error
    if not.  With a usable pool the final totals are those of the files'
    own outcomes, whatever the order of completion. *)
Theorem sync_dry_run_outcomes files st0 :
  dry_run config = true ->
  (forall k region, client_error env k region = None) ->
  Forall (fun fo => fo.2 = dry_outcome env (fut_path fo.1))
         (history (sync env config files (init st0).2).2) /\
  (0 < max_workers config ->
   totals (stats (sync env config files (init st0).2).2) =
   tally (map (fun u => dry_outcome env u.1) files)).
Proof.
  intros Hdry Hno.
  assert (Hall : Forall (fun fo => fo.2 = dry_outcome env (fut_path fo.1))
                        (history (sync env config files (init st0).2).2)).
  { apply (sync_run_ind
      (fun _ st' => Forall (fun fo => fo.2 = dry_outcome env (fut_path fo.1)) (history st'))
      (fun _ s => Forall (fun fo => fo.2 = dry_outcome env (fut_path fo.1)) (history s))).
    - intros _ st' _ (_ & _ & _ & _ & _ & ->) _. constructor.
    - intros _ _ e st' info _ _ _ _ -> _ _ _ _. constructor.
    - intros _ _. constructor.
    - intros _ _ done f s o s1 s' t0 _ HI Hup _ _ _ _ _ ->.
      apply Forall_app. split; [exact HI|]. constructor; [|constructor]. cbn.
      pose proof (upload_file_dry _ _ _ _ _ _ _ _ Hup Hdry Hno) as Ho. congruence.
    - intros _ _ stl r st' lines HI _ (_ & _ & _ & _ & _ & ->) _ _ _. exact HI. }
  split; [exact Hall|]. intros Hw.
  destruct files as [|u files']; [reflexivity|].
  set (files := u :: files') in *.
  destruct (sync_final env config files st0 Hw ltac:(discriminate))
    as (pbar & stl & r & st' & _ & Hh & Hinv & Hsync & Hs & Hhist & _ & _).
  rewrite Hsync in Hall |- *. cbn [snd] in *. rewrite Hs.
  rewrite (loop_inv_totals _ _ _ _ _ _ Hinv).
  rewrite Hhist in Hall.
  assert (Hsnd : map snd (history stl) =
                 map (fun f => dry_outcome env (fut_path f)) (map fst (history stl))).
  { clear -Hall. induction Hall as [|[f o] h Ho _ IH]; [reflexivity|].
    cbn in Ho |- *. rewrite Ho, IH. reflexivity. }
  rewrite Hsnd, Hh. apply tally_permutation.
  rewrite <- (submit_all_units files) at 2.
  rewrite map_map.
  change (map (fun x => dry_outcome env (unit_of_future x).1))
    with (fmap (M:=list) (fun x => dry_outcome env (fut_path x))).
  change (map (fun f => dry_outcome env (fut_path f)))
    with (fmap (M:=list) (fun x => dry_outcome env (fut_path x))).
  apply fmap_Permutation, as_completed_perm.
Qed.

(** X13. When [sync] returns on a fresh uploader and a non-empty list,
    the log ends with the summary lines computed from the final
    statistics: the total shown is the number of units given, it is the
    sum of the succeeded and failed counts shown, and the bytes shown are
    [format_bytes] of the byte total. *)
Theorem sync_report files st0 :
  files <> [] ->
  (sync env config files (init st0).2).1 = Ok tt ->
  exists pre elapsed data,
    log (sync env config files (init st0).2).2 =
      pre ++ summary_lines (stats (sync env config files (init st0).2).2) elapsed data /\
    success (stats (sync env config files (init st0).2).2) +
    failed (stats (sync env config files (init st0).2).2) = Z.of_nat (length files) /\
    utils.format_bytes (bytes_transferred (stats (sync env config files (init st0).2).2))
    = Ok data.
Proof.
  intros Hne.
  apply (sync_run_ind
    (fun r st' => r = Ok tt ->
       exists pre elapsed data,
         log st' = pre ++ summary_lines (stats st') elapsed data /\
         success (stats st') + failed (stats st') = Z.of_nat (length files) /\
         utils.format_bytes (bytes_transferred (stats st')) = Ok data)
    (fun done s => success (stats s) + failed (stats s) = Z.of_nat (length done))).
  - intros; contradiction.
  - intros; discriminate.
  - reflexivity.
  - intros _ _ done f s o s1 s' t0 _ HI _ _ _ _ _ Hst _.
    rewrite Hst, length_app. cbn [length].
    destruct (record_step o (stats s)) as (_ & Hok & Hko).
    destruct (o.1.1).
    + destruct (Hok eq_refl) as (-> & -> & _). lia.
    + destruct (Hko eq_refl) as (-> & -> & _). lia.
  - intros _ _ stl r st' lines HI _ (_ & Hs & _) Hl _ Hres Hr.
    rewrite as_completed_length in HI. unfold submit_all in HI. rewrite length_imap in HI.
    destruct (utils.format_bytes (bytes_transferred (stats stl))) as [data|e] eqn:Hfmt.
    + destruct Hres as [_ ->]. eexists _, _, data. rewrite Hs.
      split; [exact Hl|]. split; [exact HI|exact Hfmt].
    + congruence.
Qed.

(** X15. [print_summary] raises [TypeError] when the start time was never
    stamped.  Once it is stamped, and as long as the succeeded count
    converts to a float (any count of magnitude below [2^1000] does, and
    so does the count of any run, which is at most the length of its
    list), the only possible failure is the [OverflowError] of formatting
    a byte total of magnitude [2^1000] or more; in particular it never
    divides by zero.  A succeeded count too large for a float is left
    out: there line 132 itself raises [OverflowError]. *)
Theorem print_summary_failure st :
  (start_time (stats st) = None ->
   exists e, print_summary env st = (Err e, set_clock_reads S st) /\
             exn_cls e = TypeError) /\
  (forall t0 m, start_time (stats st) = Some t0 ->
     utils.float_of_int (success (stats st)) = Ok m ->
     (print_summary env st).1 = Ok tt \/
     exists e, (print_summary env st).1 = Err e /\ exn_cls e = OverflowError /\
               2 ^ 1000 <= Z.abs (bytes_transferred (stats st))).
Proof.
  split.
  - intros H. unfold print_summary, bind, elapsed_since_start, time_time, get. cbn.
    rewrite H. cbn. eauto.
  - intros t0 fl Ht0 _.
    destruct (print_summary_started env st t0 Ht0) as (r & st' & lines & -> & _ & _ & _ & _ & Hres).
    cbn [fst]. destruct (utils.format_bytes (bytes_transferred (stats st))) as [data|e] eqn:Hfmt.
    + left. apply Hres.
    + right. exists e. split; [exact Hres|].
      apply format_bytes_err in Hfmt.
      destruct (float_of_int_err _ _ Hfmt) as [-> _]. split; [reflexivity|].
      destruct (Z.lt_ge_cases (Z.abs (bytes_transferred (stats st))) (2 ^ 1000)) as [Hlt|];
        [|assumption].
      destruct (float_of_int_ok _ Hlt) as [m Hm]. congruence.
Qed.

(** X16. When the clock reads no later than the start time,
    [print_summary] still returns normally and reports an upload rate of
    0 and (for a non-zero total) an estimate of 0 hours. *)
Theorem print_summary_no_time_elapsed st t0 data :
  start_time (stats st) = Some t0 ->
  (now env (clock_reads st) <= t0)%Q ->
  utils.format_bytes (bytes_transferred (stats st)) = Ok data ->
  (print_summary env st).1 = Ok tt /\
  Summary (UploadRate 0) ∈ log (print_summary env st).2 /\
  (0 < success (stats st) + failed (stats st) ->
   Summary (Estimated 0) ∈ log (print_summary env st).2).
Proof.
  intros Ht0 Hle Hfmt.
  destruct (print_summary_started env st t0 Ht0) as (r & st' & lines & -> & _ & _ & Hl & _ & Hres).
  rewrite Hfmt in Hres. destruct Hres as [-> ->]. cbn [fst snd].
  assert (Hrate : forall n, rate_value n (now env (clock_reads st) - t0) = 0%Q).
  { intros n. unfold rate_value, is_positive.
    assert (Hb : Qle_bool (now env (clock_reads st) - t0) 0 = true).
    { apply Qle_bool_iff. unfold Qminus.
      apply Qle_minus_iff in Hle. apply Qle_minus_iff.
      rewrite Qplus_0_l, Qopp_plus, Qopp_opp, Qplus_comm. exact Hle. }
    rewrite Hb. reflexivity. }
  split; [reflexivity|]. rewrite Hl. unfold summary_lines. rewrite Hrate. split.
  - apply elem_of_app. right. apply elem_of_app. left.
    do 8 apply list_elem_of_further. apply list_elem_of_here.
  - intros Hpos. destruct (Z.ltb_spec 0 (success (stats st) + failed (stats st))); [|lia].
    apply elem_of_app. right. apply elem_of_app. right.
    apply elem_of_app. left. cbn. apply list_elem_of_here.
Qed.
End RunProperties.

(** ** sync.OptimizedS3Uploader.sync: the aggregator under any order of completion *)

Section Delivery.
Variable env : Env.
Variable config : Config.







End Delivery.

Section Aggregator.
Variable env : Env.
Variable config : Config.


End Aggregator.


Section TransferMore.
Variable env : Env.
Variable config : Config.

(** X4. Outside dry-run mode, for a source file that exists and a client
    that is cached or can be built, [upload_file] issues exactly one put.
    The put uses the calling thread's own client, the path and the key
    exactly as given (the configured [s3_prefix] is not applied), and the
    configured bucket, storage class and transfer settings.  The outcome
    is a success with the file's size if the put is accepted and a
    failure carrying the put's error if it is refused. *)
Theorem upload_file_real tid file_path s3_key st file_size :
  dry_run config = false ->
  getsize env file_path = Ok file_size ->
  (thread_local st !! tid <> None \/
   client_error env (boto3_calls st) (aws_region config) = None) ->
  exists c o st',
    upload_file env config tid file_path s3_key st = (Ok o, st') /\
    thread_local st' !! tid = Some c /\
    s3_calls st' = s3_calls st ++ [put_of config c file_path s3_key] /\
    put_key (put_of config c file_path s3_key) = s3_key /\
    put_as_configured config (put_of config c file_path s3_key) /\
    o = match put_error env (length (s3_calls st)) (put_of config c file_path s3_key) with
        | Some e => failure_of file_path e
        | None => (true, file_path, file_size)
        end.
Proof.
  intros Hdry Hsz Hcl.
  destruct (upload_file env config tid file_path s3_key st) as [r st'] eqn:H.
  upload_cases H; try congruence; try (destruct Hcl; congruence);
    match goal with Hs : getsize env file_path = Ok ?a |- _ =>
      assert (a = file_size) as -> by congruence end;
    eexists _, _, _; (split; [reflexivity|]);
    (split; [cbn; first [eassumption | apply lookup_insert_eq]|]);
    cbn in Hput |- *; rewrite Hput; repeat split.
Qed.

(** X5. [upload_file] from one thread leaves the statistics, the history,
    the display and the clock untouched, leaves the client slot of every
    other thread as it was, and, when the calling thread already has a
    client, builds none and keeps that one. *)
Theorem upload_file_isolation tid file_path s3_key st :
  same_aggregate st (upload_file env config tid file_path s3_key st).2 /\
  (forall t, t <> tid ->
     thread_local (upload_file env config tid file_path s3_key st).2 !! t =
     thread_local st !! t) /\
  (forall c, thread_local st !! tid = Some c ->
     thread_local (upload_file env config tid file_path s3_key st).2 = thread_local st /\
     boto3_calls (upload_file env config tid file_path s3_key st).2 = boto3_calls st).
Proof.
  destruct (upload_file env config tid file_path s3_key st) as [r st'] eqn:H. cbn [snd].
  split; [|split].
  - destruct (upload_file_returns env config tid file_path s3_key st)
      as (o & st1 & H' & Hsame & _). congruence.
  - eapply upload_file_slots; eassumption.
  - intros c Hc. eapply upload_file_cached; eassumption.
Qed.

(** X6. When the calling thread has no client yet and [boto3.client]
    raises, [upload_file] returns a failed outcome whose cause is that
    exception; no put is issued, and nothing is cached, so the thread's
    slot is still empty for the next unit. *)
Theorem upload_file_client_failure tid file_path s3_key st file_size e :
  getsize env file_path = Ok file_size ->
  thread_local st !! tid = None ->
  client_error env (boto3_calls st) (aws_region config) = Some e ->
  upload_file env config tid file_path s3_key st =
    (Ok (failure_of file_path e), log_failure file_path e (set_boto3_calls S st)) /\
  thread_local (log_failure file_path e (set_boto3_calls S st)) !! tid = None /\
  s3_calls (log_failure file_path e (set_boto3_calls S st)) = s3_calls st.
Proof.
  intros Hsz Htl Herr. rewrite upload_file_eq, Hsz.
  rewrite (get_s3_client_miss _ _ _ _ Htl), Herr.
  split; [reflexivity|]. split; [exact Htl|reflexivity].
Qed.

(** X14. With a non-empty list and [max_workers <= 0], [sync] raises
    [ValueError] when it builds the pool.  By then the start has been
    logged (that one INFO record is all the log gains, so no summary
    line) and the start time stamped with one reading of the clock; the
    three counters are as they were, no client is built or cached, no put
    is issued, no outcome is recorded and no bar is drawn. *)
Theorem sync_without_workers files st :
  files <> [] ->
  max_workers config <= 0 ->
  exists e st',
    sync env config files st = (Err e, st') /\
    exn_cls e = ValueError /\
    log st' = log st ++ [Log INFO ((if dry_run config then "DRY RUN: " else "")
                                   +:+ "Syncing " +:+ pretty (length files)
                                   +:+ " files with " +:+ pretty (max_workers config)
                                   +:+ " workers")] /\
    start_time (stats st') = Some (now env (clock_reads st)) /\
    clock_reads st' = S (clock_reads st) /\
    totals (stats st') = totals (stats st) /\
    thread_local st' = thread_local st /\ boto3_calls st' = boto3_calls st /\
    s3_calls st' = s3_calls st /\
    history st' = history st /\ display st' = display st.
Proof.
  intros Hne Hw. destruct files as [|f files']; [contradiction|].
  unfold sync, bind, logger, modify, time_time, ThreadPoolExecutor.
  destruct (Z.leb_spec (max_workers config) 0); [|lia].
  cbn -[pretty]. eexists _, _. split; [reflexivity|]. cbn -[pretty].
  repeat split.
Qed.
End TransferMore.


Section MockData.
Variable env : Env.

Lemma length_bind_const {A B} (f : A -> list B) (m : nat) (l : list A) :
  (forall x, length (f x) = m) -> length (l ≫= f) = (length l * m)%nat.
Proof.
  intros Hf. induction l as [|x l IH]; [reflexivity|].
  rewrite bind_cons, length_app, Hf, IH. cbn. lia.
Qed.

Lemma Forall_bind_list {A B} (P : B -> Prop) (f : A -> list B) (l : list A) :
  (forall x, Forall P (f x)) -> Forall P (l ≫= f).
Proof.
  intros Hf. induction l as [|x l IH]; [constructor|].
  rewrite bind_cons. apply Forall_app. split; [apply Hf|exact IH].
Qed.

(** A loop whose body never raises and leaves the state alone collects
    what the bodies return. *)
Lemma for_extend_pure {A B} (body : A -> M (list B)) (g : A -> list B) (xs : list A) st :
  (forall x s, body x s = (Ok (g x), s)) ->
  for_extend xs body st = (Ok (xs ≫= g), st).
Proof.
  intros Hbody. induction xs as [|x xs IH]; [reflexivity|].
  cbn [for_extend]. unfold bind. rewrite Hbody, IH. reflexivity.
Qed.

Lemma string_app_cons_ne (a : string) c (r : string) : a +:+ String c r <> "".
Proof. destruct a; discriminate. Qed.

Lemma join_slash_snoc (l : list string) (x : string) :
  join_slash (l ++ [x]) =
  match l with [] => x | _ => join_slash l +:+ "/" +:+ x end.
Proof.
  induction l as [|y l IH]; [reflexivity|].
  destruct l as [|z l]; [reflexivity|].
  change (join_slash ((y :: z :: l) ++ [x]))
    with (y +:+ "/" +:+ join_slash ((z :: l) ++ [x])).
  rewrite IH.
  change (join_slash (y :: z :: l)) with (y +:+ "/" +:+ join_slash (z :: l)).
  rewrite !string_app_assoc. reflexivity.
Qed.

(** The components of a parsed path are never empty. *)
Lemma Path_parts_nonempty (s : string) : Forall (fun x => x <> "") (path_parts (Path s)).
Proof.
  unfold Path. destruct (splitroot s) as [root rel]. cbn [path_parts].
  apply Forall_forall. intros x Hx. apply list_elem_of_filter in Hx as [[Hx _] _]. exact Hx.
Qed.

Lemma join_slash_nonempty (l : list string) :
  l <> [] -> Forall (fun x => x <> "") l -> join_slash l <> "".
Proof.
  intros Hne Hall. destruct l as [|x l]; [contradiction|].
  apply Forall_cons in Hall as [Hx _].
  destruct l as [|y l]; [exact Hx|].
  change (join_slash (x :: y :: l)) with (x +:+ String "/" (join_slash (y :: l))).
  apply string_app_cons_ne.
Qed.

Lemma string_app_ne_r (a b : string) : b <> "" -> a +:+ b <> "".
Proof. intros Hb. destruct b as [|c r]; [contradiction|]. apply string_app_cons_ne. Qed.

(** What a path built by two joins reads: the base, a separator unless
    the base is a bare root or the current directory, and the two
    names. *)
Lemma path_str_div2 (b : PurePath) (d f : string) :
  path_str (path_div (path_div b d) f) =
  (match path_parts b with
   | [] => path_root b
   | _ => path_root b +:+ join_slash (path_parts b) +:+ "/"
   end) +:+ d +:+ "/" +:+ f.
Proof.
  unfold path_str, path_div. cbn [path_root path_parts].
  rewrite join_slash_snoc.
  destruct (path_parts b ++ [d]) as [|x l] eqn:E; [destruct (path_parts b); discriminate|].
  rewrite <- E, join_slash_snoc.
  rewrite bool_decide_eq_false_2.
  - destruct (path_parts b); rewrite ?string_app_assoc; reflexivity.
  - apply string_app_ne_r.
    change ((match path_parts b with [] => d | _ :: _ => join_slash (path_parts b) +:+ "/" +:+ d end)
            +:+ String "/" f <> "").
    apply string_app_cons_ne.
Qed.

Lemma relative_to_div2 (b : PurePath) (d f : string) :
  relative_to (path_div (path_div b d) f) b =
  Ok {| path_root := ""; path_parts := [d; f] |}.
Proof.
  unfold relative_to, path_div. cbn [path_root path_parts].
  rewrite <- app_assoc. cbn [app].
  rewrite bool_decide_eq_true_2 by (split; [reflexivity|apply take_app_length]).
  rewrite drop_app_length. reflexivity.
Qed.

Lemma path_str_relative (d f : string) c :
  path_str {| path_root := ""; path_parts := [String c d; f] |} = String c d +:+ "/" +:+ f.
Proof. reflexivity. Qed.


(** The rounds of [create_mock_data] never raise: they produce the pairs
    one directory after the other. *)
Lemma mock_files_pure (b : PurePath) (dirs per_dir : list Z) st :
  for_extend dirs (fun i =>
    for_extend per_dir (mock_entry b (path_div b ("dir_" +:+ pad4 i)))) st =
  (Ok (i ← dirs; j ← per_dir;
       [(path_str (path_div (path_div b ("dir_" +:+ pad4 i)) ("file_" +:+ pad4 j +:+ ".txt")),
         "dir_" +:+ pad4 i +:+ "/file_" +:+ pad4 j +:+ ".txt")]), st).
Proof.
  apply for_extend_pure. intros i s. apply for_extend_pure. intros j s'.
  unfold mock_entry, bind, lift, ret. rewrite relative_to_div2. reflexivity.
Qed.

(** [create_mock_data] does not return for a request of 0 to 9 files. *)
Lemma create_mock_data_not_small base_path num_files st files st' :
  create_mock_data env base_path num_files st = (Ok files, st') ->
  ~ (0 <= num_files < 10).
Proof.
  unfold create_mock_data, bind, logger, modify. cbn -[Path path_str].
  destruct (mock_tree_error env num_files); [discriminate|].
  unfold floordiv at 1. cbn -[Path path_str].
  intros Hrun Hn.
  assert (Hq : num_files / 10 = 0) by (apply Z.div_small; lia).
  rewrite Hq in Hrun. cbn in Hrun. discriminate.
Qed.

(** X17. For a request of 0 to 9 files [create_mock_data] raises
    [ZeroDivisionError] (the number of directories is 0) after logging
    the request. *)
Theorem create_mock_data_small base_path num_files st :
  0 <= num_files < 10 ->
  mock_tree_error env num_files = None ->
  exists e,
    create_mock_data env base_path num_files st =
      (Err e, set_log (fun l => l ++ [Log INFO ("Creating " +:+ pretty num_files
                                                +:+ " mock files...")]) st) /\
    exn_cls e = ZeroDivisionError.
Proof.
  intros Hn Htree. unfold create_mock_data, bind, logger, modify. cbn.
  rewrite Htree. unfold floordiv at 1. cbn.
  assert (Hq : num_files / 10 = 0) by (apply Z.div_small; lia).
  rewrite Hq. cbn. eauto.
Qed.

(** X18. When [create_mock_data] returns, the request was not for 0 to 9
    files; the list has [min(100, n // 10) * (n // min(100, n // 10))]
    entries, which for [n >= 10] is at most [n] and misses [n] by less
    than the number of directories; a negative request gives the empty
    list.  Every key has the form [dir_DDDD/file_FFFF.txt], and every path
    is the text of the base path, then "/" unless the base path is the
    current directory or a bare root, then the key.  Two INFO records
    have been logged. *)
Theorem create_mock_data_listing base_path num_files st files st' :
  create_mock_data env base_path num_files st = (Ok files, st') ->
  ~ (0 <= num_files < 10) /\
  Z.of_nat (length files) = mock_count num_files /\
  (10 <= num_files ->
   num_files - Z.min 100 (num_files / 10) < Z.of_nat (length files) <= num_files) /\
  (num_files < 0 -> files = []) /\
  Forall (fun pk =>
    (exists i j, pk.2 = "dir_" +:+ pad4 i +:+ "/file_" +:+ pad4 j +:+ ".txt") /\
    pk.1 = match path_parts (Path base_path) with
           | [] => path_root (Path base_path) +:+ pk.2
           | _ => path_str (Path base_path) +:+ "/" +:+ pk.2
           end) files /\
  exists created, log st' = log st ++ [Log INFO ("Creating " +:+ pretty num_files
                                                  +:+ " mock files..."); Log INFO created].
Proof.
  unfold create_mock_data, bind, logger, modify. cbn -[Path path_str].
  destruct (mock_tree_error env num_files); [discriminate|].
  unfold floordiv at 1. cbn -[Path path_str].
  set (d := Z.min 100 (num_files / 10)).
  unfold floordiv. destruct (Z.eqb_spec d 0) as [Hd0|Hd0]; [discriminate|].
  cbn -[Path path_str]. rewrite mock_files_pure. cbn -[Path path_str].
  intros [= <- <-].
  assert (Hlen : forall l, length (l ≫= (fun i : Z =>
            seqZ 0 (num_files / d) ≫= (fun j : Z =>
              [(path_str (path_div (path_div (Path base_path) ("dir_" +:+ pad4 i))
                                   ("file_" +:+ pad4 j +:+ ".txt")),
                "dir_" +:+ pad4 i +:+ "/file_" +:+ pad4 j +:+ ".txt")])))
          = (length l * Z.to_nat (num_files / d))%nat).
  { intros l. apply length_bind_const. intros i.
    rewrite (length_bind_const _ 1%nat) by reflexivity. rewrite length_seqZ. lia. }
  split; [|split; [|split; [|split; [|split]]]].
  - intros Hn. apply Hd0. subst d.
    assert (num_files / 10 = 0) by (apply Z.div_small; lia). lia.
  - rewrite Hlen, length_seqZ, Nat2Z.inj_mul. unfold mock_count. fold d. f_equal; lia.
  - intros Hn. rewrite Hlen, length_seqZ, Nat2Z.inj_mul.
    assert (Hq : 1 <= num_files / 10) by (apply Z.div_le_lower_bound; lia).
    assert (Hd : 1 <= d) by (subst d; lia).
    pose proof (Z.mod_pos_bound num_files d ltac:(lia)) as Hm.
    pose proof (Z_div_mod_eq_full num_files d) as Heq.
    assert (Hf : 0 <= num_files / d) by (apply Z.div_pos; lia).
    rewrite !Z2Nat.id by lia. nia.
  - intros Hn.
    assert (Hq : num_files / 10 < 0) by (apply Z.div_lt_upper_bound; lia).
    assert (Hd : d < 0) by (subst d; lia).
    destruct d as [|p|p] eqn:Ed; try lia. reflexivity.
  - apply Forall_bind_list. intros i. apply Forall_bind_list. intros j.
    constructor; [|constructor]. cbn [fst snd]. split; [eauto|].
    rewrite path_str_div2.
    pose proof (Path_parts_nonempty base_path) as Hparts.
    destruct (path_parts (Path base_path)) as [|x l] eqn:E.
    + rewrite !string_app_assoc. reflexivity.
    + unfold path_str. rewrite E.
      rewrite bool_decide_eq_false_2.
      * rewrite !string_app_assoc. reflexivity.
      * apply string_app_ne_r, join_slash_nonempty; [discriminate|exact Hparts].
  - eexists. unfold set_log. cbn [log]. rewrite <- app_assoc. reflexivity.
Qed.
End MockData.

Section MainProps.
Variable env : Env.

(** X12. The counters are zeroed by the constructor only.  When [sync] is
    run twice on the same uploader and both runs return, the counters
    after the second run sum to the number of units of both runs. *)
Theorem sync_twice_accumulates config files1 files2 st0 :
  (sync env config files1 (init st0).2).1 = Ok tt ->
  (sync env config files2 (sync env config files1 (init st0).2).2).1 = Ok tt ->
  success (stats (sync env config files2 (sync env config files1 (init st0).2).2).2) +
  failed (stats (sync env config files2 (sync env config files1 (init st0).2).2).2) =
  Z.of_nat (length files1) + Z.of_nat (length files2).
Proof.
  intros H1 H2.
  rewrite (sync_counts _ _ _ _ H2), (sync_counts _ _ _ _ H1). cbn. lia.
Qed.

(** X19. Without [--mock] and with mock mode off, [main] always fails.
    If the bucket or the SMB server is empty it fails with the
    [ValueError] of the validation, and nothing at all has happened.  If
    both are set and the [logging] module refuses [LOG_LEVEL], it fails
    with that error, again before anything is logged.  Otherwise it fails
    with [NotImplementedError] from the SMB listing.  In every case no
    client is built, no put is issued and the statistics are untouched. *)
Theorem main_production_never_uploads args_mock_files fields st :
  mock_mode fields = false ->
  exists e,
    (main env false args_mock_files fields st).1 = Err e /\
    ((s3_bucket fields = "" \/ smb_server fields = "") ->
     exn_cls e = ValueError /\ (main env false args_mock_files fields st).2 = st) /\
    (s3_bucket fields <> "" -> smb_server fields <> "" ->
     match level_error env (log_level fields) with
     | Some e' => e = e' /\ (main env false args_mock_files fields st).2 = st
     | None => exn_cls e = NotImplementedError
     end) /\
    s3_calls (main env false args_mock_files fields st).2 = s3_calls st /\
    boto3_calls (main env false args_mock_files fields st).2 = boto3_calls st /\
    stats (main env false args_mock_files fields st).2 = stats st.
Proof.
  intros Hmock. unfold main, bind, lift. rewrite new_post_init.
  destruct (post_init fields) as [[]|e] eqn:Hpost.
  - assert (Hset : s3_bucket fields <> "" /\ smb_server fields <> "").
    { destruct (decide (s3_bucket fields = "")) as [Hb|Hb];
        [|destruct (decide (smb_server fields = "")) as [Hs|Hs]]; [| |split; assumption].
      + assert (Hx : exists e, post_init fields = Err e) by (apply post_init_err; auto).
        destruct Hx as [e He]. congruence.
      + assert (Hx : exists e, post_init fields = Err e) by (apply post_init_err; auto).
        destruct Hx as [e He]. congruence. }
    unfold setup_logging.
    destruct (level_error env (log_level fields)) as [e'|] eqn:Hlvl.
    + exists e'. cbn. split; [reflexivity|].
      split; [intros [?|?]; destruct Hset; contradiction|].
      split; [intros _ _; split; reflexivity|]. repeat split.
    + rewrite Hmock. cbn.
      exists (Exn NotImplementedError "SMB handler not implemented yet. Use --mock mode.").
      split; [reflexivity|].
      split; [intros [?|?]; destruct Hset; contradiction|].
      split; [intros _ _; reflexivity|]. repeat split.
  - exists e. cbn. split; [reflexivity|].
    pose proof (post_init_cls _ _ Hpost) as Hcls.
    split; [intros _; split; [exact Hcls|reflexivity]|].
    split; [|repeat split].
    intros Hb Hs.
    assert (Hx : exists e, post_init fields = Err e) by eauto.
    apply post_init_err in Hx. destruct Hx as [_ [?|?]]; contradiction.
Qed.

(** X20. When [main] returns normally, the run was in mock mode
    ([--mock] or [MOCK_MODE]), the configuration passed validation, the
    requested number of mock files was not between 0 and 9, the two
    counters sum to the number of mock files listed, and the last record
    logged is the completion message. *)
Theorem main_returns args_mock args_mock_files fields st :
  (main env args_mock args_mock_files fields st).1 = Ok tt ->
  (args_mock || mock_mode fields = true) /\
  post_init fields = Ok tt /\
  ~ (0 <= args_mock_files < 10) /\
  (exists st1 files st2,
     create_mock_data env "/app/test-data/mock" args_mock_files st1 = (Ok files, st2) /\
     success (stats (main env args_mock args_mock_files fields st).2) +
     failed (stats (main env args_mock args_mock_files fields st).2) =
     Z.of_nat (length files)) /\
  last (log (main env args_mock args_mock_files fields st).2) =
    Some (Log INFO "✅ Sync completed!").
Proof.
  unfold main, bind, lift. rewrite new_post_init.
  destruct (post_init fields) as [[]|e] eqn:Hpost; [|discriminate].
  unfold setup_logging.
  destruct (level_error env (log_level fields)) as [e'|]; [discriminate|].
  unfold ret, logger, logger_summary, modify.
  cbn -[create_mock_data sync init pretty].
  destruct (args_mock || mock_mode fields) eqn:Hflag.
  2:{ cbn. discriminate. }
  match goal with |- context [create_mock_data env ?b ?n ?s] =>
    set (st1 := s); destruct (create_mock_data env b n st1) as [[files|e] st2] eqn:Hmk end;
    [|discriminate].
  cbn -[sync pretty].
  match goal with |- context [sync env fields files ?s] =>
    set (st3 := s);
    pose proof (sync_counts env fields files st3) as Hcount;
    destruct (sync env fields files st3) as [[[]|e] st4] eqn:Hsync end; [|discriminate].
  cbn [fst snd] in *. intros _.
  split; [reflexivity|]. split; [reflexivity|]. split; [|split].
  - exact (create_mock_data_not_small env _ _ _ _ _ Hmk).
  - exists st1, files, st2. split; [exact Hmk|].
    cbn. rewrite (Hcount eq_refl). subst st3. cbn. lia.
  - cbn. rewrite last_snoc. reflexivity.
Qed.
End MainProps.

(** ** Instances of the further properties *)

Lemma format_bytes_below_1024_witness : utils.format_bytes (-5000) = Ok "-5000.00 B".
Proof. apply (format_bytes_below_1024 (-5000)). lia. Defined.

Lemma format_bytes_times_1024_witness :
  exists digits,
    utils.format_bytes 1536 = Ok (digits +:+ " KB") /\
    utils.format_bytes (1024 * 1536) = Ok (digits +:+ " MB").
Proof. apply (format_bytes_times_1024 1536). lia. Defined.

Lemma upload_file_real_witness :
  exists c o st',
    upload_file examples.env (examples.mock_config false) 0 "a" "ka" boot = (Ok o, st') /\
    s3_calls st' = [put_of (examples.mock_config false) c "a" "ka"] /\
    o = (true, "a", 100).
Proof.
  destruct (upload_file_real examples.env (examples.mock_config false) 0%nat "a" "ka" boot 100)
    as (c & o & st' & Hrun & _ & Hcalls & _ & _ & Ho).
  - reflexivity.
  - reflexivity.
  - right. reflexivity.
  - exists c, o, st'. split; [exact Hrun|]. split; [exact Hcalls|exact Ho].
Defined.

Lemma upload_file_client_failure_witness :
  exists st',
    upload_file examples.env_without_clients (examples.mock_config true) 0 "a" "ka" boot
    = (Ok (false, "a: You must specify a region.", 0), st') /\
    thread_local st' !! 0%nat = None.
Proof.
  destruct (upload_file_client_failure examples.env_without_clients (examples.mock_config true)
              0%nat "a" "ka" boot 100 (Exn (OtherException "NoRegionError") "You must specify a region."))
    as (Hrun & Hslot & _).
  - reflexivity.
  - reflexivity.
  - reflexivity.
  - eexists. split; [exact Hrun|exact Hslot].
Defined.

Lemma sync_dry_run_no_puts_witness :
  s3_calls (sync examples.env (examples.mock_config true) examples.files boot).2 = [].
Proof.
  apply (sync_dry_run_no_puts examples.env (examples.mock_config true) examples.files boot).
  reflexivity.
Defined.

Lemma sync_dry_run_outcomes_witness :
  totals (stats (sync examples.env (examples.mock_config true) examples.files (init boot).2).2)
  = (3, 1, 300).
Proof.
  apply (proj2 (sync_dry_run_outcomes examples.env (examples.mock_config true)
                  examples.files boot eq_refl (fun _ _ => eq_refl))).
  reflexivity.
Defined.

Lemma sync_twice_accumulates_witness :
  success (stats (sync examples.env (examples.mock_config false) [("c", "kc")]
                   (sync examples.env (examples.mock_config false) examples.files
                      (init boot).2).2).2) +
  failed (stats (sync examples.env (examples.mock_config false) [("c", "kc")]
                  (sync examples.env (examples.mock_config false) examples.files
                     (init boot).2).2).2) = 5.
Proof.
  apply (sync_twice_accumulates examples.env (examples.mock_config false)
           examples.files [("c", "kc")] boot).
  - vm_compute. reflexivity.
  - vm_compute. reflexivity.
Defined.

Lemma sync_report_witness :
  exists pre elapsed data,
    log (sync examples.env (examples.mock_config false) examples.files (init boot).2).2 =
      pre ++ summary_lines
               (stats (sync examples.env (examples.mock_config false) examples.files
                         (init boot).2).2) elapsed data /\
    data = "200.00 B".
Proof.
  destruct (sync_report examples.env (examples.mock_config false) examples.files boot)
    as (pre & elapsed & data & Hlog & _ & Hdata).
  - discriminate.
  - vm_compute. reflexivity.
  - exists pre, elapsed, data. split; [exact Hlog|].
    vm_compute in Hdata. injection Hdata as <-. reflexivity.
Defined.

Lemma sync_without_workers_witness :
  exists e st',
    sync examples.env examples.no_worker_config examples.files boot = (Err e, st') /\
    exn_cls e = ValueError /\
    log st' = [Log INFO "Syncing 4 files with 0 workers"] /\
    totals (stats st') = (0, 0, 0) /\ s3_calls st' = [].
Proof.
  destruct (sync_without_workers examples.env examples.no_worker_config examples.files boot)
    as (e & st' & Hrun & Hcls & Hlog & _ & _ & Htot & _ & _ & Hcalls & _).
  - discriminate.
  - cbn. lia.
  - exists e, st'. split; [exact Hrun|]. split; [exact Hcls|].
    split; [rewrite Hlog; reflexivity|]. split; [rewrite Htot; reflexivity|exact Hcalls].
Defined.

Lemma print_summary_no_time_elapsed_witness :
  (print_summary examples.env examples.started).1 = Ok tt /\
  Summary (UploadRate 0) ∈ log (print_summary examples.env examples.started).2.
Proof.
  destruct (print_summary_no_time_elapsed examples.env examples.started
              (inject_Z 5) "100.00 B") as (Hok & Hrate & _).
  - reflexivity.
  - vm_compute. discriminate.
  - vm_compute. reflexivity.
  - split; assumption.
Defined.

Lemma create_mock_data_small_witness :
  exists e st', create_mock_data examples.env "/m" 5 boot = (Err e, st') /\
                exn_cls e = ZeroDivisionError.
Proof.
  destruct (create_mock_data_small examples.env "/m" 5 boot) as (e & Hrun & Hcls).
  - lia.
  - reflexivity.
  - eexists e, _. split; [exact Hrun|exact Hcls].
Defined.

Lemma create_mock_data_listing_witness :
  exists files st',
    create_mock_data examples.env "." 25 boot = (Ok files, st') /\
    Z.of_nat (length files) = 24 /\
    Forall (fun pk => pk.1 = pk.2) files.
Proof.
  destruct (create_mock_data examples.env "." 25 boot) as [[files|e] st'] eqn:Hrun.
  - exists files, st'. split; [reflexivity|].
    destruct (create_mock_data_listing examples.env "." 25 boot files st' Hrun)
      as (_ & Hlen & _ & _ & Hall & _).
    split; [rewrite Hlen; reflexivity|].
    eapply Forall_impl; [exact Hall|]. intros pk [_ Hpk]. exact Hpk.
  - vm_compute in Hrun. discriminate Hrun.
Defined.

Lemma main_production_never_uploads_witness :
  (exists e,
     (main examples.env false 100 (examples.production_config "INFO") boot).1 = Err e /\
     exn_cls e = NotImplementedError /\
     s3_calls (main examples.env false 100 (examples.production_config "INFO") boot).2 = []) /\
  (main examples.env false 100 (examples.production_config "BOGUS") boot).1
  = Err (examples.no_such_level "BOGUS") /\
  (exists e,
     (main examples.env false 100 examples.default_config boot).1 = Err e /\
     exn_cls e = ValueError /\
     (main examples.env false 100 examples.default_config boot).2 = boot).
Proof.
  split; [|split].
  - destruct (main_production_never_uploads examples.env 100
                (examples.production_config "INFO") boot)
      as (e & Hrun & _ & Hlvl & Hcalls & _).
    + reflexivity.
    + exists e. split; [exact Hrun|]. split; [|exact Hcalls].
      apply (Hlvl ltac:(discriminate) ltac:(discriminate)).
  - destruct (main_production_never_uploads examples.env 100
                (examples.production_config "BOGUS") boot)
      as (e & Hrun & _ & Hlvl & _).
    + reflexivity.
    + rewrite Hrun. f_equal.
      apply (Hlvl ltac:(discriminate) ltac:(discriminate)).
  - destruct (main_production_never_uploads examples.env 100 examples.default_config boot)
      as (e & Hrun & Hbad & _).
    + reflexivity.
    + exists e. split; [exact Hrun|]. apply Hbad. right. reflexivity.
Defined.

Lemma main_returns_witness :
  last (log (main examples.env true 20 (examples.mock_config true) boot).2) =
    Some (Log INFO "✅ Sync completed!") /\
  success (stats (main examples.env true 20 (examples.mock_config true) boot).2) +
  failed (stats (main examples.env true 20 (examples.mock_config true) boot).2) = 20.
Proof.
  destruct (main_returns examples.env true 20 (examples.mock_config true) boot)
    as (_ & _ & _ & _ & Hlast).
  - vm_compute. reflexivity.
  - split; [exact Hlast|]. vm_compute. reflexivity.
Defined.

Lemma format_bytes_failure_witness :
  (exists s, utils.format_bytes 1500 = Ok s) /\
  (exists e, utils.format_bytes (2 ^ 1024) = Err e).
Proof.
  split.
  - apply (proj1 (proj2 (format_bytes_failure 1500))). lia.
  - apply (proj2 (proj2 (format_bytes_failure (2 ^ 1024)))). lia.
Defined.

Lemma upload_file_isolation_witness :
  boto3_calls
    (upload_file examples.env (examples.mock_config false) 0 "c" "kc"
       (upload_file examples.env (examples.mock_config false) 0 "a" "ka" boot).2).2 = 1%nat.
Proof.
  destruct (upload_file_isolation examples.env (examples.mock_config false) 0%nat "c" "kc"
              (upload_file examples.env (examples.mock_config false) 0 "a" "ka" boot).2)
    as (_ & _ & Hhit).
  destruct (Hhit 0%nat) as [_ Hcalls].
  - vm_compute. reflexivity.
  - rewrite Hcalls. reflexivity.
Defined.


Lemma print_summary_failure_witness :
  (exists e, print_summary examples.env boot = (Err e, set_clock_reads S boot) /\
             exn_cls e = TypeError) /\
  (print_summary examples.env examples.started).1 = Ok tt.
Proof.
  split.
  - apply (proj1 (print_summary_failure examples.env boot)). reflexivity.
  - destruct (proj2 (print_summary_failure examples.env examples.started) (inject_Z 5) 1)
      as [Hok | (e & Herr & _)].
    + reflexivity.
    + reflexivity.
    + exact Hok.
    + vm_compute in Herr. discriminate Herr.
Defined.
